(** * Decision layer of the grind bot: world state, mob tracking, combos,
      combat gate and route progress.

    A shallow embedding of [src/core/game_state.py], [combo_manager.py],
    [mob_controller.py], [combat_system.py] and [route_manager.py], followed
    by the properties of the specification that were checked against it.

    Conventions of the embedding.
    - A Python [float] is an exact rational ([Q]); a Python [int] is [Z].
    - [x ** 0.5] is kept symbolically: [Sqrt r] stands for the non-negative
      real whose square is [r], and the comparisons of such a value with a
      rational are decided on the squares, so every definition computes.
    - Clock reads ([time.time()], the event loop's [time()]) are arguments of
      the operation that performs them; the reads of one stretch of code
      that never suspends are given one reading.
    - A coroutine is the function from the state at its call to the state at
      its return, with how it ended ([outcome]).  Logging is left out. *)

From Stdlib Require Import QArith Lqa ZArith Bool List String.
From stdpp Require Import gmap strings list fin_maps.

Set Warnings "-clear-no-such-hyp".

(** ** Python values *)

Module py.

(** The exceptions the modelled code can raise. *)
Inductive exn : Set :=
| UnboundLocalError.

(** How a call ends: it returns, raises, or waits for ever on a lock that
    its own task already holds ([asyncio.Lock] is not re-entrant). *)
Inductive outcome : Set :=
| Returned
| Raised (e : exn)
| Blocked.

Definition leb (x y : Q) : bool := Qle_bool x y.
Definition ltb (x y : Q) : bool := negb (Qle_bool y x).
Definition geb (x y : Q) : bool := leb y x.
Definition gtb (x y : Q) : bool := ltb y x.

(** [r ** 0.5] for [r >= 0]. *)
Inductive Dist : Set := Sqrt (radicand : Q).

Definition radicand (d : Dist) : Q := let 'Sqrt r := d in r.

(** [d < c], [d > c] for a float [c], and [d < e] between two distances. *)
Definition dist_ltb (d : Dist) (c : Q) : bool :=
  ltb 0 c && ltb (radicand d) (c * c).
Definition dist_gtb (d : Dist) (c : Q) : bool :=
  ltb c 0 || ltb (c * c) (radicand d).
Definition dist_lt_dist (d e : Dist) : bool :=
  ltb (radicand d) (radicand e).

(** Truth value of a [str]: only the empty string is falsy. *)
Definition truthy (s : string) : bool :=
  match s with EmptyString => false | String _ _ => true end.

End py.

(** ** [src/core/game_state.py] *)

Module game_state.
Import py.

Inductive CharacterState : Set :=
| IDLE | MOVING | COMBAT | DEAD | STUNNED | KNOCKDOWN | FROZEN.

Inductive CombatState : Set :=
| NONE | ATTACKING | DEFENDING | CHASING | ESCAPING.

#[global] Instance CharacterState_eq_dec : EqDecision CharacterState.
Proof. solve_decision. Defined.
#[global] Instance CombatState_eq_dec : EqDecision CombatState.
Proof. solve_decision. Defined.

(** [CharacterState.value] *)
Definition value (c : CharacterState) : string :=
  match c with
  | IDLE => "idle" | MOVING => "moving" | COMBAT => "combat"
  | DEAD => "dead" | STUNNED => "stunned" | KNOCKDOWN => "knockdown"
  | FROZEN => "frozen"
  end.

Record Position : Set := mkPosition {
  x : Q; y : Q; z : Q; rotation : Q }.

Definition distance_to (self other : Position) : Dist :=
  Sqrt ((x self - x other) ^ 2 + (y self - y other) ^ 2
        + (z self - z other) ^ 2)%Q.

Record CharacterStats : Set := mkCharacterStats {
  level : Z;
  hp : Q; hp_max : Q;
  mp : Q; mp_max : Q;
  wp : Q; wp_max : Q;
  stamina : Q; stamina_max : Q;
  ap : Z; dp : Z; accuracy : Z; evasion : Z }.

Definition CharacterStats_default : CharacterStats :=
  mkCharacterStats 1 100 100 100 100 100 100 100 100 0 0 0 0.

Record SkillCooldown : Set := mkSkillCooldown {
  skill_id : string;
  remaining_time : Q;     (* the expiry timestamp *)
  total_cooldown : Q }.

(** An entry of [detected_mobs], with the keys that
    [MobController._mob_info_to_dict] writes. *)
Record MobDict : Set := mkMobDict {
  mob_dict_id : Z;
  mob_dict_type : string;
  mob_dict_position : Q * Q * Q;
  mob_dict_health : Q;
  mob_dict_distance : Dist;
  mob_dict_threat_level : Q;
  mob_dict_is_aggro : bool;
  mob_dict_is_elite : bool }.

(** An entry of [nearby_players]; the key ['is_hostile'] may be absent. *)
Record PlayerDict : Set := mkPlayerDict {
  player_name : string;
  is_hostile : option bool }.

Record GameState : Type := mkGameState {
  character_state : CharacterState;
  combat_state : CombatState;
  position : Position;
  stats : CharacterStats;
  inventory : gmap Z (gmap string string);
  equipment : gmap string (gmap string string);
  weight : Q;
  weight_limit : Q;
  active_buffs : gmap string Q;
  skill_cooldowns : gmap string SkillCooldown;
  combat_stance : bool;
  detected_mobs : list MobDict;
  targeted_mob : option MobDict;
  aggro_mobs : gset Z;
  nearby_players : list PlayerDict;
  is_safe_zone : bool;
  is_pvp_zone : bool;
  last_update : Q;
  frame_times : list Q }.

(** [GameState()] built when the clock reads [now]. *)
Definition init (now : Q) : GameState :=
  {| character_state := IDLE; combat_state := NONE;
     position := mkPosition 0 0 0 0;
     stats := CharacterStats_default;
     inventory := ∅; equipment := ∅;
     weight := 0; weight_limit := 100;
     active_buffs := ∅; skill_cooldowns := ∅; combat_stance := false;
     detected_mobs := []; targeted_mob := None; aggro_mobs := ∅;
     nearby_players := []; is_safe_zone := false; is_pvp_zone := false;
     last_update := now; frame_times := [] |}.

(** Field assignments. *)
Definition set_character_state (v : CharacterState) (g : GameState) :=
  mkGameState v (combat_state g) (position g) (stats g) (inventory g)
    (equipment g) (weight g) (weight_limit g) (active_buffs g)
    (skill_cooldowns g) (combat_stance g) (detected_mobs g) (targeted_mob g)
    (aggro_mobs g) (nearby_players g) (is_safe_zone g) (is_pvp_zone g)
    (last_update g) (frame_times g).
Definition set_combat_state (v : CombatState) (g : GameState) :=
  mkGameState (character_state g) v (position g) (stats g) (inventory g)
    (equipment g) (weight g) (weight_limit g) (active_buffs g)
    (skill_cooldowns g) (combat_stance g) (detected_mobs g) (targeted_mob g)
    (aggro_mobs g) (nearby_players g) (is_safe_zone g) (is_pvp_zone g)
    (last_update g) (frame_times g).
Definition set_position (v : Position) (g : GameState) :=
  mkGameState (character_state g) (combat_state g) v (stats g) (inventory g)
    (equipment g) (weight g) (weight_limit g) (active_buffs g)
    (skill_cooldowns g) (combat_stance g) (detected_mobs g) (targeted_mob g)
    (aggro_mobs g) (nearby_players g) (is_safe_zone g) (is_pvp_zone g)
    (last_update g) (frame_times g).
Definition set_stats (v : CharacterStats) (g : GameState) :=
  mkGameState (character_state g) (combat_state g) (position g) v
    (inventory g) (equipment g) (weight g) (weight_limit g) (active_buffs g)
    (skill_cooldowns g) (combat_stance g) (detected_mobs g) (targeted_mob g)
    (aggro_mobs g) (nearby_players g) (is_safe_zone g) (is_pvp_zone g)
    (last_update g) (frame_times g).
Definition set_skill_cooldowns (v : gmap string SkillCooldown) (g : GameState) :=
  mkGameState (character_state g) (combat_state g) (position g) (stats g)
    (inventory g) (equipment g) (weight g) (weight_limit g) (active_buffs g)
    v (combat_stance g) (detected_mobs g) (targeted_mob g)
    (aggro_mobs g) (nearby_players g) (is_safe_zone g) (is_pvp_zone g)
    (last_update g) (frame_times g).
Definition set_detected_mobs (v : list MobDict) (g : GameState) :=
  mkGameState (character_state g) (combat_state g) (position g) (stats g)
    (inventory g) (equipment g) (weight g) (weight_limit g) (active_buffs g)
    (skill_cooldowns g) (combat_stance g) v (targeted_mob g)
    (aggro_mobs g) (nearby_players g) (is_safe_zone g) (is_pvp_zone g)
    (last_update g) (frame_times g).
Definition set_targeted_mob (v : option MobDict) (g : GameState) :=
  mkGameState (character_state g) (combat_state g) (position g) (stats g)
    (inventory g) (equipment g) (weight g) (weight_limit g) (active_buffs g)
    (skill_cooldowns g) (combat_stance g) (detected_mobs g) v
    (aggro_mobs g) (nearby_players g) (is_safe_zone g) (is_pvp_zone g)
    (last_update g) (frame_times g).
Definition set_nearby_players (v : list PlayerDict) (g : GameState) :=
  mkGameState (character_state g) (combat_state g) (position g) (stats g)
    (inventory g) (equipment g) (weight g) (weight_limit g) (active_buffs g)
    (skill_cooldowns g) (combat_stance g) (detected_mobs g) (targeted_mob g)
    (aggro_mobs g) v (is_safe_zone g) (is_pvp_zone g)
    (last_update g) (frame_times g).
Definition set_last_update (v : Q) (g : GameState) :=
  mkGameState (character_state g) (combat_state g) (position g) (stats g)
    (inventory g) (equipment g) (weight g) (weight_limit g) (active_buffs g)
    (skill_cooldowns g) (combat_stance g) (detected_mobs g) (targeted_mob g)
    (aggro_mobs g) (nearby_players g) (is_safe_zone g) (is_pvp_zone g)
    v (frame_times g).

Definition set_hp (v : Q) (s : CharacterStats) :=
  mkCharacterStats (level s) v (hp_max s) (mp s) (mp_max s) (wp s) (wp_max s)
    (stamina s) (stamina_max s) (ap s) (dp s) (accuracy s) (evasion s).
Definition set_mp (v : Q) (s : CharacterStats) :=
  mkCharacterStats (level s) (hp s) (hp_max s) v (mp_max s) (wp s) (wp_max s)
    (stamina s) (stamina_max s) (ap s) (dp s) (accuracy s) (evasion s).
Definition set_wp (v : Q) (s : CharacterStats) :=
  mkCharacterStats (level s) (hp s) (hp_max s) (mp s) (mp_max s) v (wp_max s)
    (stamina s) (stamina_max s) (ap s) (dp s) (accuracy s) (evasion s).
Definition set_stamina (v : Q) (s : CharacterStats) :=
  mkCharacterStats (level s) (hp s) (hp_max s) (mp s) (mp_max s) (wp s)
    (wp_max s) v (stamina_max s) (ap s) (dp s) (accuracy s) (evasion s).

(** [update_position]: the clock is read as [now].  The local [distance]
    is bound only when [time_diff > 0]; reading it unbound raises, after
    the position and the timestamp were stored. *)
Definition update_position (self : GameState) (new_pos : Position) (now : Q)
  : GameState * outcome :=
  let time_diff := (now - last_update self)%Q in
  let distance :=
    if gtb time_diff 0 then Some (distance_to (position self) new_pos)
    else None in
  let self := set_last_update now (set_position new_pos self) in
  match distance with
  | None => (self, Raised UnboundLocalError)
  | Some distance =>
      if dist_gtb distance (1 # 10) then
        (set_character_state MOVING self, Returned)
      else if decide (character_state self = MOVING) then
        (set_character_state IDLE self, Returned)
      else (self, Returned)
  end.

(** [stats.get(key, current)] *)
Definition get (stats : gmap string Q) (key : string) (dflt : Q) : Q :=
  default dflt (stats !! key).

Definition update_stats (self : GameState) (new_stats : gmap string Q)
  : GameState :=
  let s := stats self in
  let s := set_hp (get new_stats "hp" (hp s)) s in
  let s := set_mp (get new_stats "mp" (mp s)) s in
  let s := set_wp (get new_stats "wp" (wp s)) s in
  let s := set_stamina (get new_stats "stamina" (stamina s)) s in
  let self := set_stats s self in
  if leb (hp (stats self)) 0 then set_character_state DEAD self
  else self.

Definition update_combat_state (self : GameState) (new_state : CombatState)
  : GameState :=
  if decide (new_state ≠ combat_state self) then
    let self := set_combat_state new_state self in
    if decide (new_state = ATTACKING) then set_character_state COMBAT self
    else if decide (new_state = NONE ∧ character_state self = COMBAT) then
      set_character_state IDLE self
    else self
  else self.

(** [update_skill_cooldowns]: the ids whose expiry has passed are
    collected first and deleted afterwards. *)
Definition expired_skills (cds : gmap string SkillCooldown) (current_time : Q)
  : list string :=
  (filter (λ kv, geb current_time (remaining_time kv.2) = true)
          (map_to_list cds)).*1.

Definition update_skill_cooldowns (self : GameState) (now : Q) : GameState :=
  set_skill_cooldowns
    (foldr delete (skill_cooldowns self)
           (expired_skills (skill_cooldowns self) now))
    self.

Definition start_skill_cooldown (self : GameState) (id : string)
  (duration : Q) (now : Q) : GameState :=
  let end_time := (now + duration)%Q in
  set_skill_cooldowns
    (<[id := mkSkillCooldown id end_time duration]> (skill_cooldowns self))
    self.

Definition can_use_skill (self : GameState) (id : string) (now : Q) : bool :=
  match skill_cooldowns self !! id with
  | None => true
  | Some cd => geb now (remaining_time cd)
  end.

(** [update_mobs].  When the targeted mob is gone while attacking, the
    method awaits [update_combat_state] with the state lock still held,
    and never resumes. *)
Definition update_mobs (self : GameState) (mobs : list MobDict)
  : GameState * outcome :=
  let self := set_detected_mobs mobs self in
  match targeted_mob self with
  | None => (self, Returned)
  | Some target =>
      match List.find (λ mob, Z.eqb (mob_dict_id mob) (mob_dict_id target)) mobs with
      | Some mob => (set_targeted_mob (Some mob) self, Returned)
      | None =>
          let self := set_targeted_mob None self in
          if decide (combat_state self = ATTACKING) then (self, Blocked)
          else (self, Returned)
      end
  end.

Definition update_nearby_players (self : GameState)
  (players : list PlayerDict) : GameState :=
  set_nearby_players players self.

(** The mutating operations as data, to speak of sequences of calls. *)
Inductive op : Type :=
| UpdateCombatState (new_state : CombatState)
| UpdatePosition (new_pos : Position) (now : Q)
| UpdateStats (new_stats : gmap string Q).

Definition apply_op (self : GameState) (o : op) : GameState :=
  match o with
  | UpdateCombatState c => update_combat_state self c
  | UpdatePosition p now => fst (update_position self p now)
  | UpdateStats s => update_stats self s
  end.

Definition run (self : GameState) (ops : list op) : GameState :=
  foldl apply_op self ops.

End game_state.

(** ** [src/utils/input_handler.py], as far as the core drives it *)

Module input_handler.

(** What reaches the device: [pyautogui.keyDown] and [pyautogui.keyUp];
    [pyautogui.press] is a key down followed by a key up.  The humanising
    delays of the handler change no state that the core reads.  The handler
    swallows the failure of a device call; the device calls are taken to
    succeed. *)
Inductive KeyEvent : Set :=
| KeyDown (key : string)
| KeyUp (key : string).

Record InputHandler : Set := mkInputHandler {
  events : list KeyEvent }.      (* oldest first *)

Definition emit (e : list KeyEvent) (self : InputHandler) : InputHandler :=
  mkInputHandler (events self ++ e).

(** [press_key(key)] with no duration. *)
Definition press_key (self : InputHandler) (key : string) : InputHandler :=
  emit [KeyDown key; KeyUp key] self.
Definition hold_key (self : InputHandler) (key : string) : InputHandler :=
  emit [KeyDown key] self.
Definition release_key (self : InputHandler) (key : string) : InputHandler :=
  emit [KeyUp key] self.

(** The keys that are down after a run of events. *)
Definition held_after (e : KeyEvent) (held : gset string) : gset string :=
  match e with
  | KeyDown k => {[k]} ∪ held
  | KeyUp k => held ∖ {[k]}
  end.
Definition held (es : list KeyEvent) : gset string :=
  foldl (λ h e, held_after e h) ∅ es.

End input_handler.

(** ** [src/core/combo_manager.py] *)

Module combo_manager.
Import py game_state input_handler.

Record ComboAction : Set := mkComboAction {
  keys : list string;
  action_type : string;          (* press, hold, release *)
  duration : Q;
  animation_time : Q }.

Record Combo : Type := mkCombo {
  name : string;
  actions : list ComboAction;
  cooldown : Q;
  mp_cost : Q;
  range_type : string;           (* close, mid, long *)
  total_duration : Q;
  conditions : gmap string string }.

(** [combos] is a [dict] that is iterated: it is kept in insertion order.
    [lua] is the embedded interpreter: [lua_eval code] is the value's truth
    ([None] when the evaluation raises). *)
Record ComboManager : Type := mkComboManager {
  lua_eval : string → option bool;
  combos : list (string * Combo);
  current_combo : option string;
  last_combo_time : Q;
  successful_skills : Z;
  total_skills : Z;
  combo_history : list (string * Q);     (* (combo_name, timestamp) *)
  max_history : Z }.

Definition init (lua : string → option bool) : ComboManager :=
  mkComboManager lua [] None 0 0 0 [] 50.

Definition set_current_combo (v : option string) (c : ComboManager) :=
  mkComboManager (lua_eval c) (combos c) v (last_combo_time c)
    (successful_skills c) (total_skills c) (combo_history c) (max_history c).
Definition set_last_combo_time (v : Q) (c : ComboManager) :=
  mkComboManager (lua_eval c) (combos c) (current_combo c) v
    (successful_skills c) (total_skills c) (combo_history c) (max_history c).
Definition set_successful_skills (v : Z) (c : ComboManager) :=
  mkComboManager (lua_eval c) (combos c) (current_combo c) (last_combo_time c)
    v (total_skills c) (combo_history c) (max_history c).
Definition set_total_skills (v : Z) (c : ComboManager) :=
  mkComboManager (lua_eval c) (combos c) (current_combo c) (last_combo_time c)
    (successful_skills c) v (combo_history c) (max_history c).
Definition set_combo_history (v : list (string * Q)) (c : ComboManager) :=
  mkComboManager (lua_eval c) (combos c) (current_combo c) (last_combo_time c)
    (successful_skills c) (total_skills c) v (max_history c).

(** The objects a method of the manager reaches: the manager itself and
    the shared world state and input handler it holds references to. *)
Record Objects : Type := mkObjects {
  self : ComboManager;
  game_state : GameState;
  input_handler : InputHandler }.

Definition with_self (f : ComboManager → ComboManager) (o : Objects) :=
  mkObjects (f (self o)) (game_state o) (input_handler o).
Definition with_game_state (f : GameState → GameState) (o : Objects) :=
  mkObjects (self o) (f (game_state o)) (input_handler o).
Definition with_input_handler (f : InputHandler → InputHandler) (o : Objects) :=
  mkObjects (self o) (game_state o) (f (input_handler o)).

(** [self.combos[combo_name]] and [combo_name in self.combos] *)
Definition combos_get (cs : list (string * Combo)) (combo_name : string)
  : option Combo :=
  snd <$> List.find (λ kv, String.eqb (fst kv) combo_name) cs.
Definition combos_contains (cs : list (string * Combo)) (combo_name : string)
  : bool :=
  bool_decide (is_Some (combos_get cs combo_name)).

(** [next((t for n, t in reversed(history) if n == name), 0)] *)
Definition last_use (history : list (string * Q)) (combo_name : string) : Q :=
  default 0%Q
    (snd <$> List.find (λ nt, String.eqb (fst nt) combo_name) (rev history)).

Definition _check_cooldown (c : ComboManager) (combo : Combo) (now : Q) : bool :=
  geb (now - last_use (combo_history c) (name combo)) (cooldown combo).

Definition _check_combo_conditions (o : Objects) (combo : Combo) (now : Q)
  : bool :=
  if negb (_check_cooldown (self o) combo now) then false
  else if ltb (mp (stats (game_state o))) (mp_cost combo) then false
  else
    match lua_eval (self o)
            (default "return true" (conditions combo !! "check")) with
    | None => false                (* the evaluation raised *)
    | Some conditions_met => conditions_met
    end.

Definition _check_action_conditions (g : GameState) : bool :=
  if bool_decide (value (character_state g)
                    ∈ ["stunned"; "knockdown"; "dead"]) then false
  else if leb (hp (stats g)) 0 then false
  else true.

(** [release_all_keys]: the modifier keys, then, when a combo is in flight
    ([self.current_combo] is truthy and names a loaded combo), every key of
    every action of that combo. *)
Definition mod_keys : list string := ["shift"; "ctrl"; "alt"].

Definition release_keys (ks : list string) (ih : InputHandler) : InputHandler :=
  foldl release_key ih ks.

Definition combo_keys (combo : Combo) : list string :=
  concat (map keys (actions combo)).

Definition release_all_keys (o : Objects) : Objects :=
  let o := with_input_handler (release_keys mod_keys) o in
  match current_combo (self o) with
  | Some current =>
      if truthy current && combos_contains (combos (self o)) current then
        match combos_get (combos (self o)) current with
        | Some combo => with_input_handler (release_keys (combo_keys combo)) o
        | None => o
        end
      else o
  | None => o
  end.

(** One action of a combo; the sleeps only pass time. *)
Definition apply_action (action : ComboAction) (ih : InputHandler)
  : InputHandler :=
  if String.eqb (action_type action) "press" then
    foldl press_key ih (keys action)
  else if String.eqb (action_type action) "hold" then
    release_keys (rev (keys action)) (foldl hold_key ih (keys action))
  else if String.eqb (action_type action) "release" then
    release_keys (keys action) ih
  else ih.

Definition _consume_mp (g : GameState) (combo : Combo) : GameState :=
  set_stats (set_mp (mp (stats g) - mp_cost combo)%Q (stats g)) g.

Definition _start_cooldown (g : GameState) (combo : Combo) (now : Q)
  : GameState :=
  start_skill_cooldown g (name combo) (cooldown combo) now.

(** The loop over the actions of [execute_combo], from step [i] on.
    While step [i] is suspended in its sleeps, the rest of the program may
    update the shared world state: [world i] is that update.  The result
    is [false] when a step was cancelled (the keys are released then). *)
Fixpoint run_actions (world : nat → GameState → GameState)
  (actions : list ComboAction) (i : nat) (o : Objects) : Objects * bool :=
  match actions with
  | [] => (o, true)
  | action :: rest =>
      if negb (_check_action_conditions (game_state o)) then
        (release_all_keys o, false)
      else
        let o := with_input_handler (apply_action action) o in
        let o := with_game_state (world i) o in
        run_actions world rest (S i) o
  end.

Definition append_history (combo_name : string) (now : Q) (c : ComboManager)
  : ComboManager :=
  let h := combo_history c ++ [(combo_name, now)] in
  set_combo_history
    (if Z.ltb (max_history c) (Z.of_nat (length h)) then tail h else h) c.

(** [execute_combo]: the clock reads [now] at the call and [done] after
    the last action.  [finally] always clears [current_combo]. *)
Definition execute_combo (o : Objects) (combo_name : string)
  (now done : Q) (world : nat → GameState → GameState) : Objects * bool :=
  let finally o := with_self (set_current_combo None) o in
  match combos_get (combos (self o)) combo_name with
  | None => (finally o, false)
  | Some combo =>
      if negb (_check_combo_conditions o combo now) then (finally o, false)
      else
        let o := with_self (set_current_combo (Some combo_name)) o in
        let o := with_self (set_last_combo_time now) o in
        let o := with_self (append_history combo_name now) o in
        match run_actions world (actions combo) 0 o with
        | (o, false) => (finally o, false)
        | (o, true) =>
            let o := with_self (λ c,
                       set_successful_skills (successful_skills c + 1) c) o in
            let o := with_self (λ c,
                       set_total_skills (total_skills c + 1) c) o in
            let o := with_game_state (λ g, _start_cooldown g combo done) o in
            let o := with_game_state (λ g, _consume_mp g combo) o in
            (finally o, true)
        end
  end.

(** The selection criteria; only ['range_type'] is read. *)
Record Criteria : Set := mkCriteria {
  criteria_range_type : option string;
  criteria_target_count : option Z;
  criteria_is_elite : option bool }.

Definition _calculate_combo_score (o : Objects) (combo : Combo)
  (criteria : Criteria) (now : Q) : Q :=
  let score := 0%Q in
  let score :=
    if bool_decide (criteria_range_type criteria = Some (range_type combo))
    then (score + 2)%Q else score in
  let score :=
    if leb (mp_cost combo) (mp (stats (game_state o)) * (3 # 10))
    then (score + 1)%Q else score in
  let score :=
    if _check_cooldown (self o) combo now then (score + 1)%Q else score in
  let score :=
    if gtb (now - last_use (combo_history (self o)) (name combo)) 10
    then (score + (1 # 2))%Q else score in
  score.

Definition get_combo (o : Objects) (criteria : Criteria) (now : Q)
  : option string :=
  fst (foldl
         (λ (best : option string * Q) (kv : string * Combo),
            let '(combo_name, combo) := kv in
            if negb (_check_combo_conditions o combo now) then best
            else
              let score := _calculate_combo_score o combo criteria now in
              if gtb score (snd best) then (Some combo_name, score)
              else best)
         (None, (-1)%Q) (combos (self o))).

End combo_manager.

(** ** [src/core/mob_controller.py] *)

Module mob_controller.
Import py game_state.

Record MobInfo : Set := mkMobInfo {
  mob_id : Z;
  mob_type : string;
  position : Position;
  health : Q;
  size : Z * Z;                  (* width, height *)
  distance : Dist;
  threat_level : Q;
  last_seen : Q;                 (* timestamp *)
  is_aggro : bool;
  is_elite : bool }.

(** A detection as [process_frame] reads it: the keys ['mob_type'] and
    ['bbox'], and the optional keys ['elite'], ['is_elite'], ['distance']. *)
Record Detection : Set := mkDetection {
  det_mob_type : string;
  det_bbox : Z * Z * Z * Z;      (* x, y, w, h *)
  det_has_elite_key : bool;
  det_is_elite : option bool;
  det_distance : option Q }.

(** [tracked_mobs] is iterated and its values are shared objects: it is
    kept in insertion order.  A [MobInfo] object is identified by its
    [mob_id], which is never handed out twice. *)
Record MobController : Set := mkMobController {
  tracked_mobs : list (Z * MobInfo);
  current_target : option MobInfo;
  mob_id_counter : Z;
  min_group_size : Z;
  max_chase_distance : Q;
  mob_memory_time : Q }.         (* seconds *)

Definition init : MobController :=
  mkMobController [] None 0 3 50 3.

Definition set_tracked_mobs (v : list (Z * MobInfo)) (c : MobController) :=
  mkMobController v (current_target c) (mob_id_counter c) (min_group_size c)
    (max_chase_distance c) (mob_memory_time c).
Definition set_current_target (v : option MobInfo) (c : MobController) :=
  mkMobController (tracked_mobs c) v (mob_id_counter c) (min_group_size c)
    (max_chase_distance c) (mob_memory_time c).
Definition set_mob_id_counter (v : Z) (c : MobController) :=
  mkMobController (tracked_mobs c) (current_target c) v (min_group_size c)
    (max_chase_distance c) (mob_memory_time c).
Definition set_mob_memory_time (v : Q) (c : MobController) :=
  mkMobController (tracked_mobs c) (current_target c) (mob_id_counter c)
    (min_group_size c) (max_chase_distance c) v.

(** [d[k] = v]: an existing key keeps its place, a new key goes last. *)
Fixpoint dict_set (d : list (Z * MobInfo)) (k : Z) (v : MobInfo)
  : list (Z * MobInfo) :=
  match d with
  | [] => [(k, v)]
  | (k', v') :: rest =>
      if Z.eqb k' k then (k, v) :: rest else (k', v') :: dict_set rest k v
  end.

(** [k in d] *)
Definition dict_contains (d : list (Z * MobInfo)) (k : Z) : bool :=
  existsb (λ kv, Z.eqb (fst kv) k) d.

Definition dict_values (d : list (Z * MobInfo)) : list MobInfo := map snd d.
Definition dict_keys (d : list (Z * MobInfo)) : list Z := map fst d.

Definition _screen_to_world_pos (bbox : Z * Z * Z * Z) : Position :=
  let '(x, y, w, h) := bbox in
  let center_x := (inject_Z x + inject_Z w / 2)%Q in
  let center_y := (inject_Z y + inject_Z h / 2)%Q in
  let world_x := center_x in
  let world_y := 0%Q in
  let world_z := center_y in
  mkPosition world_x world_y world_z 0.

(** [_find_matching_mob]: [min_distance] starts at infinity ([None]). *)
Definition _find_matching_mob (self : MobController) (pos : Position)
  (distance : Dist) : option MobInfo :=
  fst (foldl
         (λ (acc : option MobInfo * option Dist) (mob : MobInfo),
            let dist := distance_to (position mob) pos in
            let below_min :=
              match snd acc with
              | None => true
              | Some min_distance => dist_lt_dist dist min_distance
              end in
            if below_min && dist_ltb dist 5 then (Some mob, Some dist)
            else acc)
         (None, None) (dict_values (tracked_mobs self))).

Definition Qmin (a b : Q) : Q := if leb a b then a else b.

Definition _calculate_threat_level (detection : Detection) : Q :=
  let '(_, _, w, h) := det_bbox detection in
  let threat := 0%Q in
  let size := (w * h)%Z in
  let threat := (threat + inject_Z size / 10000)%Q in
  let threat :=
    if default false (det_is_elite detection) then (threat + (1 # 2))%Q
    else threat in
  let threat :=
    if ltb (default 0%Q (det_distance detection)) 10 then
      (threat + (3 # 10))%Q
    else threat in
  Qmin threat 1.

Definition _cleanup_old_mobs (self : MobController) (current_time : Q)
  : MobController :=
  set_tracked_mobs
    (List.filter
       (λ kv, negb (gtb (current_time - last_seen (snd kv))
                        (mob_memory_time self)))
       (tracked_mobs self))
    self.

Definition _generate_mob_id (self : MobController) : MobController * Z :=
  let self := set_mob_id_counter (mob_id_counter self + 1) self in
  (self, mob_id_counter self).

Definition _mob_info_to_dict (mob : MobInfo) : MobDict :=
  {| mob_dict_id := mob_id mob;
     mob_dict_type := mob_type mob;
     mob_dict_position := (x (position mob), y (position mob), z (position mob));
     mob_dict_health := health mob;
     mob_dict_distance := distance mob;
     mob_dict_threat_level := threat_level mob;
     mob_dict_is_aggro := is_aggro mob;
     mob_dict_is_elite := is_elite mob |}.

(** A matched mob is updated in place: the object in [tracked_mobs] (and
    [current_target], when it is that object) changes with it. *)
Definition refresh (mob : MobInfo) (pos : Position) (dist : Dist) (now : Q)
  : MobInfo :=
  mkMobInfo (mob_id mob) (mob_type mob) pos (health mob) (size mob) dist
    (threat_level mob) now (is_aggro mob) (is_elite mob).

Definition store_object (mob : MobInfo) (self : MobController)
  : MobController :=
  let self :=
    if dict_contains (tracked_mobs self) (mob_id mob) then
      set_tracked_mobs (dict_set (tracked_mobs self) (mob_id mob) mob) self
    else self in
  match current_target self with
  | Some target =>
      if Z.eqb (mob_id target) (mob_id mob) then
        set_current_target (Some mob) self
      else self
  | None => self
  end.

(** The body of the loop over the detections of [process_frame]. *)
Definition process_detection (player_pos : Position) (now : Q)
  (st : MobController * list (Z * MobInfo)) (detection : Detection)
  : MobController * list (Z * MobInfo) :=
  let '(self, current_mobs) := st in
  let mob_type := det_mob_type detection in
  let pos := _screen_to_world_pos (det_bbox detection) in
  let dist := distance_to player_pos pos in
  match _find_matching_mob self pos dist with
  | Some tracked_mob =>
      let mob_id := mob_id tracked_mob in
      let tracked_mob := refresh tracked_mob pos dist now in
      (store_object tracked_mob self, dict_set current_mobs mob_id tracked_mob)
  | None =>
      let '(self, mob_id) := _generate_mob_id self in
      let '(_, _, w, h) := det_bbox detection in
      let new_mob :=
        mkMobInfo mob_id mob_type pos 100 (w, h) dist
          (_calculate_threat_level detection) now false
          (det_has_elite_key detection) in
      (self, dict_set current_mobs mob_id new_mob)
  end.

Record Objects : Type := mkObjects {
  self : MobController;
  game_state : GameState }.

(** [process_frame] on the detections the detector returned, the event
    loop's clock reading [now] throughout the cycle.  The method blocks
    when [update_mobs] does. *)
Definition process_frame (o : Objects) (detections : list Detection) (now : Q)
  : Objects * list MobInfo * outcome :=
  let player_pos := game_state.position (game_state o) in
  let '(self, current_mobs) :=
    foldl (process_detection player_pos now) (self o, []) detections in
  let self := _cleanup_old_mobs self now in
  let self := set_tracked_mobs current_mobs self in
  let '(g, res) :=
    update_mobs (game_state o)
      (map _mob_info_to_dict (dict_values current_mobs)) in
  (mkObjects self g, dict_values current_mobs, res).

Definition is_target_valid (self : MobController) : bool :=
  match current_target self with
  | None => false
  | Some target =>
      if negb (dict_contains (tracked_mobs self) (mob_id target)) then false
      else if dist_gtb (distance target) (max_chase_distance self) then false
      else true
  end.

End mob_controller.

(** ** [src/core/combat_system.py]: target validity and the PvP gate *)

Module combat_system.
Import py game_state.

Record CombatMetrics : Set := mkCombatMetrics {
  damage_dealt : Q;
  damage_taken : Q;
  skill_accuracy : Q;
  combat_time : Q;
  kills : Z }.

(** The fields read from [config] are stored at construction; the target
    is the [MobInfo] object the controller handed out. *)
Record CombatSystem : Set := mkCombatSystem {
  in_combat : bool;
  current_target : option mob_controller.MobInfo;
  metrics : CombatMetrics;
  min_mob_count : Z;
  max_chase_distance : Q;
  min_hp_percent : Q;
  min_mp_percent : Q;
  pvp_enabled : bool;
  last_pvp_check : Q;
  last_combat_time : Q;
  combat_reset_time : Q }.

(** [CombatSystem(...)] with an empty [config]. *)
Definition init : CombatSystem :=
  mkCombatSystem false None (mkCombatMetrics 0 0 0 0 0) 3 50 (3 # 10)
    (2 # 10) false 0 0 5.

Definition set_in_combat (v : bool) (c : CombatSystem) :=
  mkCombatSystem v (current_target c) (metrics c) (min_mob_count c)
    (max_chase_distance c) (min_hp_percent c) (min_mp_percent c)
    (pvp_enabled c) (last_pvp_check c) (last_combat_time c)
    (combat_reset_time c).
Definition set_current_target (v : option mob_controller.MobInfo)
  (c : CombatSystem) :=
  mkCombatSystem (in_combat c) v (metrics c) (min_mob_count c)
    (max_chase_distance c) (min_hp_percent c) (min_mp_percent c)
    (pvp_enabled c) (last_pvp_check c) (last_combat_time c)
    (combat_reset_time c).
Definition set_metrics (v : CombatMetrics) (c : CombatSystem) :=
  mkCombatSystem (in_combat c) (current_target c) v (min_mob_count c)
    (max_chase_distance c) (min_hp_percent c) (min_mp_percent c)
    (pvp_enabled c) (last_pvp_check c) (last_combat_time c)
    (combat_reset_time c).
Definition set_last_pvp_check (v : Q) (c : CombatSystem) :=
  mkCombatSystem (in_combat c) (current_target c) (metrics c)
    (min_mob_count c) (max_chase_distance c) (min_hp_percent c)
    (min_mp_percent c) (pvp_enabled c) v (last_combat_time c)
    (combat_reset_time c).

Definition set_kills (v : Z) (m : CombatMetrics) :=
  mkCombatMetrics (damage_dealt m) (damage_taken m) (skill_accuracy m)
    (combat_time m) v.
Definition set_combat_time (v : Q) (m : CombatMetrics) :=
  mkCombatMetrics (damage_dealt m) (damage_taken m) (skill_accuracy m) v
    (kills m).
Definition set_skill_accuracy (v : Q) (m : CombatMetrics) :=
  mkCombatMetrics (damage_dealt m) (damage_taken m) v (combat_time m)
    (kills m).

(** The objects the combat system reaches. *)
Record Objects : Type := mkObjects {
  self : CombatSystem;
  game_state : GameState;
  mob_controller : mob_controller.MobController;
  combo_manager : combo_manager.ComboManager;
  input_handler : input_handler.InputHandler }.

Definition with_self (f : CombatSystem → CombatSystem) (o : Objects) :=
  mkObjects (f (self o)) (game_state o) (mob_controller o) (combo_manager o)
    (input_handler o).
Definition with_game_state (f : GameState → GameState) (o : Objects) :=
  mkObjects (self o) (f (game_state o)) (mob_controller o) (combo_manager o)
    (input_handler o).

(** The part of the objects that the combo manager works on, and back. *)
Definition combo_objects (o : Objects) : combo_manager.Objects :=
  combo_manager.mkObjects (combo_manager o) (game_state o) (input_handler o).
Definition with_combo_objects (c : combo_manager.Objects) (o : Objects) :=
  mkObjects (self o) (combo_manager.game_state c) (mob_controller o)
    (combo_manager.self c) (combo_manager.input_handler c).

(** [_check_pvp_threat], the event loop's clock reading [current_time]. *)
Definition _check_pvp_threat (o : Objects) (current_time : Q)
  : Objects * bool :=
  if ltb (current_time - last_pvp_check (self o)) 1 then (o, false)
  else
    let o := with_self (set_last_pvp_check current_time) o in
    (o, Nat.ltb 0 (length (nearby_players (game_state o)))
          && negb (pvp_enabled (self o))).

Definition _is_target_valid (o : Objects) : Objects * bool :=
  match current_target (self o) with
  | None => (o, false)
  | Some target =>
      let distance :=
        distance_to (position (game_state o)) (mob_controller.position target) in
      if dist_gtb distance (max_chase_distance (self o)) then (o, false)
      else if leb (mob_controller.health target) 0 then
        (with_self (λ c, set_metrics (set_kills (kills (metrics c) + 1)
                                                (metrics c)) c) o,
         false)
      else (o, true)
  end.

Definition _update_metrics (o : Objects) (current_time : Q) : Objects :=
  let o :=
    if in_combat (self o) then
      with_self (λ c, set_metrics
                        (set_combat_time
                           (current_time - last_combat_time c)%Q (metrics c))
                        c) o
    else o in
  let cm := combo_manager o in
  if Z.ltb 0 (combo_manager.total_skills cm) then
    with_self (λ c, set_metrics
                      (set_skill_accuracy
                         (inject_Z (combo_manager.successful_skills cm)
                          / inject_Z (combo_manager.total_skills cm))%Q
                         (metrics c))
                      c) o
  else o.

(** [_exit_combat], the event loop's clock reading [loop_time]. *)
Definition _exit_combat (o : Objects) (loop_time : Q) : Objects :=
  let o := with_self (set_in_combat false) o in
  let o := with_self (set_current_target None) o in
  let o := with_game_state (λ g, update_combat_state g NONE) o in
  let o := with_combo_objects
             (combo_manager.release_all_keys (combo_objects o)) o in
  _update_metrics o loop_time.

(** [_emergency_exit]: [now], [done] and [world] are what the call of
    [execute_combo] meets. *)
Definition _emergency_exit (o : Objects) (loop_time now done : Q)
  (world : nat → GameState → GameState) : Objects :=
  let o := _exit_combat o loop_time in
  let escape_combo :=
    combo_manager.get_combo (combo_objects o)
      (combo_manager.mkCriteria (Some "escape") None None) now in
  match escape_combo with
  | Some escape_combo =>
      if truthy escape_combo then
        with_combo_objects
          (fst (combo_manager.execute_combo (combo_objects o) escape_combo
                  now done world)) o
      else o
  | None => o
  end.

Definition _handle_pvp_threat (o : Objects) (loop_time now done : Q)
  (world : nat → GameState → GameState) : Objects :=
  _emergency_exit o loop_time now done world.

(** The PvP gate of [update]:
    [if await self._check_pvp_threat(): await self._handle_pvp_threat(); return].
    The check reads the event loop's clock as [current_time], the exit
    later as [loop_time].  The result tells whether the cycle ended in the
    emergency exit. *)
Definition pvp_gate (o : Objects) (current_time loop_time now done : Q)
  (world : nat → GameState → GameState) : Objects * bool :=
  let '(o, threat) := _check_pvp_threat o current_time in
  if threat then (_handle_pvp_threat o loop_time now done world, true)
  else (o, false).

End combat_system.

(** ** [src/core/route_manager.py]: stuck detection *)

Module route_manager.
Import py.

Record Position : Set := mkPosition { x : Q; y : Q; z : Q }.

Definition distance_to (self other : Position) : Dist :=
  Sqrt ((x self - x other) ^ 2 + (y self - y other) ^ 2
        + (z self - z other) ^ 2)%Q.

Record RouteManager : Set := mkRouteManager {
  current_waypoint_index : Z;
  last_position : option Position;
  stuck_counter : Z }.

Definition init : RouteManager := mkRouteManager 0 None 0.

Definition update_position (self : RouteManager) (current_position : Position)
  : RouteManager :=
  let stuck_counter :=
    match last_position self with
    | Some last =>
        let distance := distance_to current_position last in
        if dist_ltb distance 1 then (stuck_counter self + 1)%Z else 0%Z
    | None => stuck_counter self
    end in
  mkRouteManager (current_waypoint_index self) (Some current_position)
    stuck_counter.

Definition is_stuck (self : RouteManager) : bool :=
  Z.ltb 10 (stuck_counter self).

Definition reset_stuck_counter (self : RouteManager) : RouteManager :=
  mkRouteManager (current_waypoint_index self) (last_position self) 0.

Definition run (self : RouteManager) (ps : list Position) : RouteManager :=
  foldl update_position self ps.

End route_manager.

(** ** Sequences of cooldown calls

    The three cooldown methods of the world state as data, each with the
    clock reading at which it runs, to speak of interleavings of calls. *)

Module skill_calls.
Import py game_state.

Inductive call : Set :=
| StartSkillCooldown (id : string) (duration : Q)
| UpdateSkillCooldowns
| CanUseSkill (id : string).

Definition apply_call (g : GameState) (tc : Q * call) : GameState :=
  match snd tc with
  | StartSkillCooldown id duration =>
      start_skill_cooldown g id duration (fst tc)
  | UpdateSkillCooldowns => update_skill_cooldowns g (fst tc)
  | CanUseSkill _ => g           (* reads only *)
  end.

Definition run (g : GameState) (calls : list (Q * call)) : GameState :=
  foldl apply_call g calls.

(** The time and the duration of the most recent [start_skill_cooldown]
    for [id], if there was one. *)
Definition last_start (id : string) (calls : list (Q * call))
  : option (Q * Q) :=
  foldl (λ acc tc,
           match snd tc with
           | StartSkillCooldown id' duration =>
               if String.eqb id' id then Some (fst tc, duration) else acc
           | _ => acc
           end)
        None calls.

(** The clock never goes back: the calls run at times that do not
    decrease, none of them later than [now]. *)
Fixpoint clock_ok (calls : list (Q * call)) (now : Q) : Prop :=
  match calls with
  | [] => True
  | (t, _) :: rest =>
      (t <= match rest with [] => now | (t', _) :: _ => t' end)%Q
      ∧ clock_ok rest now
  end.

End skill_calls.

(** ** Sample data *)

Module samples.
Import py game_state input_handler combo_manager.

(** A combo of two steps: press q, then hold w and f for a second. *)
Definition slash : Combo :=
  mkCombo "slash"
    [mkComboAction ["q"] "press" 0 (1 # 2);
     mkComboAction ["w"; "f"] "hold" 1 (1 # 2)]
    5 30 "close" 2 ∅.

(** The same combo loaded under the empty name. *)
Definition unnamed : Combo :=
  mkCombo "" (actions slash) 5 30 "close" 2 ∅.

Definition lua_true (code : string) : option bool := Some true.

Definition manager (cs : list (string * Combo)) : ComboManager :=
  mkComboManager lua_true cs None 0 0 0 [] 50.

(** A fresh bot with the combos [cs] loaded, its world state being [g]. *)
Definition objects (cs : list (string * Combo)) (g : GameState) : Objects :=
  mkObjects (manager cs) g (mkInputHandler []).

Definition stunned : GameState :=
  set_character_state STUNNED (game_state.init 0).

(** Nothing else touches the world state while a combo runs. *)
Definition quiet (i : nat) (g : GameState) : GameState := g.

(** The character is stunned while step 0 of a combo is suspended. *)
Definition stun_during_first (i : nat) (g : GameState) : GameState :=
  match i with
  | O => set_character_state STUNNED g
  | S _ => g
  end.

(** A reading of the vitals arrives while step 0 is suspended: mp is 10. *)
Definition drain_during_first (i : nat) (g : GameState) : GameState :=
  match i with
  | O => update_stats g {["mp" := 10%Q]}
  | S _ => g
  end.

(** A wolf at the origin, last seen when the clock read 10, and a
    controller that tracks it and nothing else. *)
Definition wolf : mob_controller.MobInfo :=
  mob_controller.mkMobInfo 1 "wolf" (game_state.mkPosition 0 0 0 0) 100
    (10, 10)%Z (Sqrt 0) (3 # 10) 10 false false.

Definition tracking_wolf : mob_controller.MobController :=
  mob_controller.mkMobController [(1%Z, wolf)] None 1 3 50 3.

(** A detection far from the wolf. *)
Definition boar_far : mob_controller.Detection :=
  mob_controller.mkDetection "boar" (100, 100, 10, 10)%Z false None None.

(** A player who is not hostile, and one who is. *)
Definition bystander : PlayerDict := mkPlayerDict "bystander" (Some false).
Definition raider : PlayerDict := mkPlayerDict "raider" (Some true).

(** The wolf with the given health at the given position, its recorded
    distance being the one from the origin. *)
Definition wolf_with (health : Q) (pos : game_state.Position)
  : mob_controller.MobInfo :=
  mob_controller.mkMobInfo 1 "wolf" pos health (10, 10)%Z
    (game_state.distance_to (game_state.position (game_state.init 0)) pos)
    (3 # 10) 10 false false.

(** A fresh bot at the origin whose combat system has the target [target],
    while the controller tracks [tracked] and the world state lists the
    nearby players [players]. *)
Definition fighting (target : mob_controller.MobInfo)
  (tracked : list (Z * mob_controller.MobInfo))
  (players : list PlayerDict) : combat_system.Objects :=
  combat_system.mkObjects
    (combat_system.set_current_target (Some target) combat_system.init)
    (set_nearby_players players (game_state.init 0))
    (mob_controller.set_tracked_mobs tracked mob_controller.init)
    (manager [("slash", slash)])
    (mkInputHandler []).

End samples.

(** ** Vocabulary of the statements *)

Module spec.
Import py game_state.
Local Open Scope Q_scope.

(** What [Sqrt r < c], [Sqrt r >= c], [Sqrt r > c] and [Sqrt r <= c] mean
    for [r >= 0]. *)
Definition dist_lt (d : Dist) (c : Q) : Prop := 0 < c ∧ radicand d < c * c.
Definition dist_ge (d : Dist) (c : Q) : Prop := c <= 0 ∨ c * c <= radicand d.
Definition dist_gt (d : Dist) (c : Q) : Prop := c < 0 ∨ c * c < radicand d.
Definition dist_le (d : Dist) (c : Q) : Prop := 0 <= c ∧ radicand d <= c * c.

(** Everything of the world state that is neither one of the four merged
    vitals nor the character state is the same in [g] and [g']. *)
Definition same_outside_vitals (g g' : GameState) : Prop :=
  combat_state g' = combat_state g
  ∧ position g' = position g
  ∧ inventory g' = inventory g
  ∧ equipment g' = equipment g
  ∧ weight g' = weight g
  ∧ weight_limit g' = weight_limit g
  ∧ active_buffs g' = active_buffs g
  ∧ skill_cooldowns g' = skill_cooldowns g
  ∧ combat_stance g' = combat_stance g
  ∧ detected_mobs g' = detected_mobs g
  ∧ targeted_mob g' = targeted_mob g
  ∧ aggro_mobs g' = aggro_mobs g
  ∧ nearby_players g' = nearby_players g
  ∧ is_safe_zone g' = is_safe_zone g
  ∧ is_pvp_zone g' = is_pvp_zone g
  ∧ last_update g' = last_update g
  ∧ frame_times g' = frame_times g
  ∧ level (stats g') = level (stats g)
  ∧ hp_max (stats g') = hp_max (stats g)
  ∧ mp_max (stats g') = mp_max (stats g)
  ∧ wp_max (stats g') = wp_max (stats g)
  ∧ stamina_max (stats g') = stamina_max (stats g)
  ∧ ap (stats g') = ap (stats g)
  ∧ dp (stats g') = dp (stats g)
  ∧ accuracy (stats g') = accuracy (stats g)
  ∧ evasion (stats g') = evasion (stats g).

(** The coupling of the two state enumerations. *)
Definition coupled (g : GameState) : Prop :=
  combat_state g = ATTACKING → character_state g = COMBAT.

(** What [release_all_keys] releases. *)
Definition abort_keys (c : combo_manager.ComboManager) : list string :=
  combo_manager.mod_keys ++
  match combo_manager.current_combo c with
  | Some current =>
      if py.truthy current then
        match combo_manager.combos_get (combo_manager.combos c) current with
        | Some combo => combo_manager.combo_keys combo
        | None => []
        end
      else []
  | None => []
  end.

(** What the cooldown table holds for [id] after the calls [calls], the
    last of which ran no later than [T]: the entry of the most recent
    start, unless a sweep found it expired. *)
Definition table_agrees (g : GameState) (id : string)
  (calls : list (Q * skill_calls.call)) (T : Q) : Prop :=
  match skill_cooldowns g !! id with
  | Some cd =>
      ∃ t d, skill_calls.last_start id calls = Some (t, d)
             ∧ remaining_time cd = t + d
  | None =>
      skill_calls.last_start id calls = None
      ∨ ∃ t d, skill_calls.last_start id calls = Some (t, d) ∧ t + d <= T
  end.

(** The kill counter goes up by one. *)
Definition count_kill (c : combat_system.CombatSystem)
  : combat_system.CombatSystem :=
  combat_system.set_metrics
    (combat_system.set_kills
       (combat_system.kills (combat_system.metrics c) + 1)
       (combat_system.metrics c)) c.

(** The key events of one action of a combo. *)
Definition action_events (a : combo_manager.ComboAction)
  : list input_handler.KeyEvent :=
  input_handler.events
    (combo_manager.apply_action a (input_handler.mkInputHandler [])).

(** The world state that step [i + n] of a combo meets when step [i] met
    [g] and no step in between was cancelled. *)
Fixpoint world_after (world : nat → GameState → GameState) (i n : nat)
  (g : GameState) : GameState :=
  match n with
  | O => g
  | S n => world_after world (S i) n (world i g)
  end.

(** The objects of [execute_combo] when its loop starts. *)
Definition started (o : combo_manager.Objects) (combo_name : string) (now : Q)
  : combo_manager.Objects :=
  combo_manager.with_self (combo_manager.append_history combo_name now)
    (combo_manager.with_self (combo_manager.set_last_combo_time now)
       (combo_manager.with_self
          (combo_manager.set_current_combo (Some combo_name)) o)).

(** The call is accepted: the combo is loaded and its conditions hold. *)
Definition accepted (o : combo_manager.Objects) (combo_name : string)
  (combo : combo_manager.Combo) (now : Q) : Prop :=
  combo_manager.combos_get (combo_manager.combos (combo_manager.self o))
    combo_name = Some combo
  ∧ combo_manager._check_combo_conditions o combo now = true.

(** Step [k] is the first whose cancellation check fails. *)
Definition cancelled_at (world : nat → GameState → GameState) (k : nat)
  (g : GameState) : Prop :=
  (∀ j, (j < k)%nat →
        combo_manager._check_action_conditions (world_after world 0 j g) = true)
  ∧ combo_manager._check_action_conditions (world_after world 0 k g) = false.

(** Every movement of the walk [ps], which starts from [last], is under
    [c] units. *)
Fixpoint all_moves_under (c : Q) (last : route_manager.Position)
  (ps : list route_manager.Position) : Prop :=
  match ps with
  | [] => True
  | p :: rest =>
      dist_lt (route_manager.distance_to p last) c
      ∧ all_moves_under c p rest
  end.

End spec.

(** ** The rest of [src/core/game_state.py] *)

Module game_state_rest.
Import py game_state.

Definition set_active_buffs (v : gmap string Q) (g : GameState) :=
  mkGameState (character_state g) (combat_state g) (position g) (stats g)
    (inventory g) (equipment g) (weight g) (weight_limit g) v
    (skill_cooldowns g) (combat_stance g) (detected_mobs g) (targeted_mob g)
    (aggro_mobs g) (nearby_players g) (is_safe_zone g) (is_pvp_zone g)
    (last_update g) (frame_times g).

(** [update_buffs]: the buffs whose end time has passed are collected
    first and deleted afterwards. *)
Definition expired_buffs (buffs : gmap string Q) (current_time : Q)
  : list string :=
  (filter (λ kv, geb current_time kv.2 = true) (map_to_list buffs)).*1.

Definition update_buffs (self : GameState) (now : Q) : GameState :=
  set_active_buffs
    (foldr delete (active_buffs self) (expired_buffs (active_buffs self) now))
    self.

End game_state_rest.

(** ** The rest of [src/core/combo_manager.py] *)

Module combo_manager_rest.
Import py game_state input_handler combo_manager.

Definition set_combos (v : list (string * Combo)) (c : ComboManager) :=
  mkComboManager (lua_eval c) v (current_combo c) (last_combo_time c)
    (successful_skills c) (total_skills c) (combo_history c) (max_history c).

(** The dictionary that [get_combo_stats] returns. *)
Record ComboStats : Type := mkComboStats {
  stats_total_combos : nat;
  stats_successful_skills : Z;
  stats_total_skills : Z;
  stats_accuracy : Q;
  stats_last_combo : option string;
  stats_combo_history_length : nat }.

Definition get_combo_stats (self : ComboManager) : ComboStats :=
  {| stats_total_combos := length (remove_dups (combos self).*1);
     stats_successful_skills := successful_skills self;
     stats_total_skills := total_skills self;
     stats_accuracy :=
       (inject_Z (successful_skills self)
        / inject_Z (Z.max 1 (total_skills self)))%Q;
     stats_last_combo := current_combo self;
     stats_combo_history_length := length (combo_history self) |}.

(** [cleanup] *)
Definition cleanup (self : ComboManager) : ComboManager :=
  set_current_combo None (set_combo_history [] (set_combos [] self)).

(** A call of [execute_combo] as data: what the rest of the program did to
    the world state since the previous call, then the arguments and the
    surroundings of the call. *)
Record call : Type := mkCall {
  call_before : GameState → GameState;
  call_name : string;
  call_now : Q;
  call_done : Q;
  call_world : nat → GameState → GameState }.

Definition apply_call (o : Objects) (c : call) : Objects :=
  fst (execute_combo (with_game_state (call_before c) o) (call_name c)
         (call_now c) (call_done c) (call_world c)).

Definition run (o : Objects) (calls : list call) : Objects :=
  foldl apply_call o calls.

End combo_manager_rest.

(** ** mob_controller.py, the grouping of the tracked mobs *)

Module mob_controller_rest.
Import py game_state mob_controller.
Local Open Scope Q_scope.

Definition set_min_group_size (v : Z) (c : MobController) :=
  mkMobController (tracked_mobs c) (current_target c) (mob_id_counter c) v
    (max_chase_distance c) (mob_memory_time c).

(** The inner loop of [get_mob_group_positions]: the tracked mobs that no
    group has taken and that are nearer than 15 to [mob] join its group. *)
Definition collect (mob : MobInfo) (st : gset Z * list MobInfo)
  (item : Z * MobInfo) : gset Z * list MobInfo :=
  let '(processed, group) := st in
  let '(other_id, other_mob) := item in
  if bool_decide (other_id ∉ processed) then
    if dist_ltb (distance_to (position mob) (position other_mob)) 15 then
      (processed ∪ {[other_id]}, group ++ [other_mob])
    else (processed, group)
  else (processed, group).

(** [sum(f(m) for m in group)] *)
Definition sum (f : MobInfo → Q) (group : list MobInfo) : Q :=
  foldl (λ s m, s + f m) 0 group.

Definition center (group : list MobInfo) : Position :=
  mkPosition
    (sum (λ m, x (position m)) group / inject_Z (Z.of_nat (length group)))
    (sum (λ m, y (position m)) group / inject_Z (Z.of_nat (length group)))
    (sum (λ m, z (position m)) group / inject_Z (Z.of_nat (length group)))
    0.

(** The body of the outer loop. *)
Definition group_step (self : MobController)
  (st : gset Z * list Position) (item : Z * MobInfo)
  : gset Z * list Position :=
  let '(processed, groups) := st in
  let '(mob_id, mob) := item in
  if bool_decide (mob_id ∈ processed) then (processed, groups)
  else
    let group := [mob] in
    let processed := processed ∪ {[mob_id]} in
    let '(processed, group) :=
      foldl (collect mob) (processed, group) (tracked_mobs self) in
    if Z.leb (min_group_size self) (Z.of_nat (length group)) then
      (processed, groups ++ [center group])
    else (processed, groups).

Definition get_mob_group_positions (self : MobController) : list Position :=
  match tracked_mobs self with
  | [] => []
  | _ => snd (foldl (group_step self) (∅, []) (tracked_mobs self))
  end.

End mob_controller_rest.

(** ** combat_system.py, the cycle *)

Module combat_system_rest.
Import py game_state combat_system.
Local Open Scope Q_scope.

(** What the cycle can raise. *)
Inductive exn : Set :=
| ZeroDivisionError            (* a division by a maximum that is 0 *)
| AttributeError.              (* a method or field that is not there *)

Definition _should_enter_combat (o : Objects) : bool :=
  if Z.ltb (Z.of_nat (length (mob_controller.tracked_mobs (mob_controller o))))
       (min_mob_count (self o)) then false
  else if bool_decide (value (character_state (game_state o))
                         ∈ ["stunned"; "knockdown"; "dead"]) then false
  else true.

Definition _check_resources (o : Objects) : exn + bool :=
  if Qeq_bool (hp_max (stats (game_state o))) 0 then inl ZeroDivisionError
  else if Qeq_bool (mp_max (stats (game_state o))) 0 then
    inl ZeroDivisionError
  else
    let hp_percent :=
      hp (stats (game_state o)) / hp_max (stats (game_state o)) in
    let mp_percent :=
      mp (stats (game_state o)) / mp_max (stats (game_state o)) in
    inr (gtb hp_percent (min_hp_percent (self o))
         && gtb mp_percent (min_mp_percent (self o))).

(** [_handle_low_resources] leaves combat and then asks the controller
    for its nearest safe spot: [MobController] has no method
    [get_nearest_special_point], so the call always raises. *)
Definition _handle_low_resources (o : Objects) (loop_time : Q)
  : Objects * exn :=
  (_exit_combat o loop_time, AttributeError).

(** How [_select_new_target] goes on: with a group it ends in a call of
    [MobController.select_target_near_position], which does not exist;
    without one it hands over to [select_target]. *)
Inductive selection : Set :=
| Raises (e : exn)
| Calls_select_target.

Definition _select_new_target (o : Objects) : selection :=
  match mob_controller_rest.get_mob_group_positions (mob_controller o) with
  | [] => Calls_select_target
  | _ :: _ => Raises AttributeError
  end.

(** ['close' if distance < 5 else 'mid' if distance < 15 else 'long'] *)
Definition range_of (distance : Dist) : string :=
  if dist_ltb distance 5 then "close"
  else if dist_ltb distance 15 then "mid"
  else "long".

(** [_execute_combat_actions].  [_face_target] before it changes nothing:
    the only call it makes is of [ComboManager.press_key], which does not
    exist, and it swallows the failure.  [now], [done] and [world] are what
    the combo manager meets. *)
Definition _execute_combat_actions (o : Objects) (now done : Q)
  (world : nat → GameState → GameState) : exn + Objects :=
  match current_target (self o) with
  | None => inl AttributeError
  | Some target =>
      let distance :=
        distance_to (position (game_state o))
          (mob_controller.position target) in
      let criteria :=
        combo_manager.mkCriteria (Some (range_of distance))
          (Some (Z.of_nat
                   (length (mob_controller.tracked_mobs (mob_controller o)))))
          (Some (mob_controller.is_elite target)) in
      match combo_manager.get_combo (combo_objects o) criteria now with
      | Some combo =>
          if truthy combo then
            inr (with_combo_objects
                   (fst (combo_manager.execute_combo (combo_objects o) combo
                           now done world)) o)
          else inr o
      | None => inr o
      end
  end.

(** The clock readings and the surroundings of one cycle: the event
    loop's clock at the start of [update], in [_check_pvp_threat], and in
    the first and the second [_exit_combat]; what the combo manager
    meets. *)
Record Cycle : Type := mkCycle {
  current_time : Q;
  pvp_time : Q;
  exit_time : Q;
  exit_time' : Q;
  now : Q;
  done : Q;
  world : nat → GameState → GameState }.

(** How a cycle ends: [update] returns, or it has called
    [MobController.select_target], whose choice is computed from the
    square roots of the distances. *)
Inductive ending : Type :=
| Ended (o : Objects)
| Selecting (o : Objects).

(** The handler of [update]: [except Exception: await self._emergency_exit()]. *)
Definition except (c : Cycle) (loop_time : Q) (o : Objects) : ending :=
  Ended (_emergency_exit o loop_time (now c) (done c) (world c)).

(** The end of the cycle, once the target is settled. *)
Definition act (c : Cycle) (o : Objects) : ending :=
  match _execute_combat_actions o (now c) (done c) (world c) with
  | inl _ => except c (exit_time c) o
  | inr o => Ended (_update_metrics o (current_time c))
  end.

Definition update (o : Objects) (c : Cycle) : ending :=
  if negb (in_combat (self o)) && negb (_should_enter_combat o) then Ended o
  else
    match _check_resources o with
    | inl _ => except c (exit_time c) o
    | inr false =>
        let '(o, _) := _handle_low_resources o (exit_time c) in
        except c (exit_time' c) o
    | inr true =>
        let '(o, threat) := _check_pvp_threat o (pvp_time c) in
        if threat then
          Ended (_handle_pvp_threat o (exit_time c) (now c) (done c) (world c))
        else
          let '(o, invalid) :=
            match current_target (self o) with
            | None => (o, true)
            | Some _ => let '(o, valid) := _is_target_valid o in
                        (o, negb valid)
            end in
          if invalid then
            match _select_new_target o with
            | Raises _ => except c (exit_time c) o
            | Calls_select_target => Selecting o
            end
          else act c o
    end.

(** [update] after [select_target]: it has raised, or it has returned
    nothing, or it has returned a mob, having made it the target of the
    controller as well. *)
Definition resume (o : Objects) (c : Cycle)
  (selected : exn + option mob_controller.MobInfo) : ending :=
  match selected with
  | inl _ => except c (exit_time c) o
  | inr None =>
      Ended (_exit_combat (with_self (set_current_target None) o)
               (exit_time c))
  | inr (Some best_mob) =>
      act c
        (with_self (set_current_target (Some best_mob))
           (mkObjects (self o) (game_state o)
              (mob_controller.set_current_target (Some best_mob)
                 (mob_controller o))
              (combo_manager o) (input_handler o)))
  end.

(** The objects a cycle ends with. *)
Definition objects (e : ending) : Objects :=
  match e with Ended o | Selecting o => o end.

End combat_system_rest.

(** ** Further sample data *)

Module samples_rest.
Import py game_state input_handler combo_manager.

(** A cheap combo for long range. *)
Definition leap : Combo :=
  mkCombo "leap" [mkComboAction ["space"] "press" 0 (1 # 4)] 2 10 "long"
    (1 # 4) ∅.

(** A fresh bot that has loaded [slash] and [leap], in this order. *)
Definition two_combos : Objects :=
  samples.objects [("slash", samples.slash); ("leap", leap)]
    (game_state.init 0).

Definition close_range : Criteria := mkCriteria (Some "close") None None.

(** A wolf with the given id on the x axis, three of them close to each
    other, and a bot at the origin that tracks the three. *)
Definition wolf_at (id : Z) (px : Q) : mob_controller.MobInfo :=
  mob_controller.mkMobInfo id "wolf" (mkPosition px 0 0 0) 100 (10, 10)%Z
    (Sqrt (px * px)) (3 # 10) 10 false false.

Definition pack : list (Z * mob_controller.MobInfo) :=
  [(1%Z, wolf_at 1 1); (2%Z, wolf_at 2 2); (3%Z, wolf_at 3 3)].

Definition hunting (target : option mob_controller.MobInfo) (g : GameState)
  : combat_system.Objects :=
  combat_system.mkObjects
    (combat_system.set_current_target target combat_system.init)
    g
    (mob_controller.set_tracked_mobs pack mob_controller.init)
    (samples.manager [("slash", samples.slash)])
    (mkInputHandler []).

(** A cycle that starts when the clocks read 5, with nothing else going
    on. *)
Definition calm : combat_system_rest.Cycle :=
  combat_system_rest.mkCycle 5 5 (11 # 2) 6 5 6 samples.quiet.

(** A wolf in the projection of the world state. *)
Definition wolf_dict : MobDict :=
  mkMobDict 7 "wolf" (0, 0, 0)%Q 100 (Sqrt 0) (3 # 10) false false.

End samples_rest.

(** ** Vocabulary of the further statements *)

Module spec_rest.
Import py game_state input_handler combo_manager.
Local Open Scope Q_scope.

(** The state of the loop of [get_combo] after the combos [pre]: nothing
    eligible so far, or the first of the best eligible ones. *)
Definition selection_state (o : Objects) (criteria : Criteria) (now : Q)
  (pre : list (string * Combo)) (acc : option string * Q) : Prop :=
  (fst acc = None ∧ snd acc = -1
   ∧ ∀ kv, kv ∈ pre → _check_combo_conditions o (snd kv) now = false)
  ∨ ∃ p1 n combo p2,
      pre = p1 ++ (n, combo) :: p2
      ∧ acc = (Some n, _calculate_combo_score o combo criteria now)
      ∧ _check_combo_conditions o combo now = true
      ∧ (∀ kv, kv ∈ p1 → _check_combo_conditions o (snd kv) now = true →
               _calculate_combo_score o (snd kv) criteria now
               < _calculate_combo_score o combo criteria now)
      ∧ (∀ kv, kv ∈ p2 → _check_combo_conditions o (snd kv) now = true →
               _calculate_combo_score o (snd kv) criteria now
               <= _calculate_combo_score o combo criteria now).

Definition selection_step (o : Objects) (criteria : Criteria) (now : Q)
  (best : option string * Q) (kv : string * Combo) : option string * Q :=
  let '(combo_name, combo) := kv in
  if negb (_check_combo_conditions o combo now) then best
  else
    let score := _calculate_combo_score o combo criteria now in
    if gtb score (snd best) then (Some combo_name, score) else best.

End spec_rest.

(** ** Vocabulary of the statements about the tracked mobs *)

Module spec_tracking.
Import py game_state mob_controller.
Local Open Scope Q_scope.

(** The distance from [pos] to the mob, under the square root. *)
Definition sq_dist (pos : Position) (mob : MobInfo) : Q :=
  radicand (distance_to (position mob) pos).

(** [m] is the nearest of [mobs] to [pos], the first of them when several
    are equally near, and it is nearer than [c]. *)
Definition nearest_within (c : Q) (pos : Position) (mobs : list MobInfo)
  (m : MobInfo) : Prop :=
  ∃ l1 l2,
    mobs = l1 ++ m :: l2
    ∧ spec.dist_lt (distance_to (position m) pos) c
    ∧ (∀ mob, mob ∈ l1 → sq_dist pos m < sq_dist pos mob)
    ∧ (∀ mob, mob ∈ l2 → sq_dist pos m <= sq_dist pos mob).

(** The body of the loop of [_find_matching_mob]. *)
Definition matching_step (pos : Position)
  (acc : option MobInfo * option Dist) (mob : MobInfo)
  : option MobInfo * option Dist :=
  let dist := distance_to (position mob) pos in
  let below_min :=
    match snd acc with
    | None => true
    | Some min_distance => dist_lt_dist dist min_distance
    end in
  if below_min && dist_ltb dist 5 then (Some mob, Some dist) else acc.


End spec_tracking.

(** * Properties *)

(** ** Comparisons *)

Section comparisons.
Import py.
Local Open Scope Q_scope.

Lemma py_leb_le x y : leb x y = true ↔ x <= y.
Proof. apply Qle_bool_iff. Qed.

Lemma py_leb_gt x y : leb x y = false ↔ y < x.
Proof.
  unfold leb. split.
  - intros H. apply Qnot_le_lt. intros Hle.
    apply Qle_bool_iff in Hle. congruence.
  - intros H. destruct (Qle_bool x y) eqn:E; [|reflexivity].
    apply Qle_bool_iff in E. lra.
Qed.

Lemma py_ltb_lt x y : ltb x y = true ↔ x < y.
Proof. unfold ltb. rewrite negb_true_iff. apply py_leb_gt. Qed.

Lemma py_ltb_ge x y : ltb x y = false ↔ y <= x.
Proof. unfold ltb. rewrite negb_false_iff. apply py_leb_le. Qed.

Lemma py_geb_ge x y : geb x y = true ↔ y <= x.
Proof. apply py_leb_le. Qed.

Lemma py_gtb_gt x y : gtb x y = true ↔ y < x.
Proof. apply py_ltb_lt. Qed.

Lemma py_gtb_le x y : gtb x y = false ↔ x <= y.
Proof. apply py_ltb_ge. Qed.

(** The symbolic square root agrees with the rational one where there is
    one: for [d >= 0], [Sqrt (d * d)] compares with [c] as [d] does. *)
Lemma dist_ltb_exact d c : 0 <= d → dist_ltb (Sqrt (d * d)) c = true ↔ d < c.
Proof.
  intros Hd. unfold dist_ltb. cbn [radicand].
  rewrite andb_true_iff, !py_ltb_lt. split.
  - intros [Hc H]. destruct (Qlt_le_dec d c) as [|Hle]; [done|].
    exfalso. assert (c * c <= d * d) by nra. lra.
  - intros H. split; [lra | nra].
Qed.

Lemma dist_gtb_exact d c : 0 <= d → dist_gtb (Sqrt (d * d)) c = true ↔ c < d.
Proof.
  intros Hd. unfold dist_gtb. cbn [radicand].
  rewrite orb_true_iff, !py_ltb_lt. split.
  - intros [Hc | H]; [lra|].
    destruct (Qlt_le_dec c d) as [|Hle]; [done|].
    exfalso. assert (d * d <= c * c) by nra. lra.
  - intros H. destruct (Qlt_le_dec c 0) as [|Hc]; [by left|right]. nra.
Qed.

End comparisons.

Section dist_reflection.
Import py.
Local Open Scope Q_scope.

Lemma dist_ltb_lt d c : dist_ltb d c = true ↔ spec.dist_lt d c.
Proof.
  unfold dist_ltb, spec.dist_lt.
  by rewrite andb_true_iff, !py_ltb_lt.
Qed.

Lemma dist_ltb_ge d c : dist_ltb d c = false ↔ spec.dist_ge d c.
Proof.
  unfold dist_ltb, spec.dist_ge.
  by rewrite andb_false_iff, !py_ltb_ge.
Qed.

Lemma dist_gtb_gt d c : dist_gtb d c = true ↔ spec.dist_gt d c.
Proof.
  unfold dist_gtb, spec.dist_gt.
  by rewrite orb_true_iff, !py_ltb_lt.
Qed.

Lemma dist_gtb_le d c : dist_gtb d c = false ↔ spec.dist_le d c.
Proof.
  unfold dist_gtb, spec.dist_le.
  by rewrite orb_false_iff, !py_ltb_ge.
Qed.

End dist_reflection.

(** ** World state: the coupling of combat state and character state *)

Section world_state.
Import py game_state.
Local Open Scope Q_scope.

Lemma update_combat_state_coupled g c :
  spec.coupled g → spec.coupled (update_combat_state g c).
Proof.
  unfold spec.coupled, update_combat_state. intros Hg.
  repeat case_decide; cbn; try done; try congruence.
Qed.

Lemma run_update_combat_state_coupled g (cs : list CombatState) :
  spec.coupled g → spec.coupled (run g (map UpdateCombatState cs)).
Proof.
  revert g. induction cs as [|c cs IH]; intros g Hg; [done|].
  cbn. apply IH. by apply update_combat_state_coupled.
Qed.

Lemma update_combat_state_leaves_combat g c :
  character_state g = COMBAT →
  character_state (update_combat_state g c) ≠ COMBAT →
  c = NONE ∧ combat_state g ≠ NONE
  ∧ combat_state (update_combat_state g c) = NONE
  ∧ character_state (update_combat_state g c) = IDLE.
Proof.
  unfold update_combat_state. intros Hg.
  repeat case_decide; cbn; intros Hne; try done; try congruence.
  destruct_and!. by subst c.
Qed.

Lemma update_position_leaves_combat g p now :
  character_state g = COMBAT →
  character_state (fst (update_position g p now)) ≠ COMBAT →
  last_update g < now
  ∧ spec.dist_gt (distance_to (position g) p) (1 # 10)
  ∧ character_state (fst (update_position g p now)) = MOVING.
Proof.
  unfold update_position. intros Hg.
  destruct (gtb (now - last_update g) 0) eqn:Ht; cbn; [|done].
  apply py_gtb_gt in Ht.
  destruct (dist_gtb _ _) eqn:Hd; cbn.
  - intros _. apply dist_gtb_gt in Hd. split_and!; [lra|done|done].
  - case_decide; cbn; congruence.
Qed.

Lemma update_stats_leaves_combat g s :
  character_state g = COMBAT →
  character_state (update_stats g s) ≠ COMBAT →
  hp (stats (update_stats g s)) <= 0
  ∧ character_state (update_stats g s) = DEAD.
Proof.
  unfold update_stats. intros Hg.
  destruct (leb _ _) eqn:Hhp; cbn in *; [|done].
  intros _. by apply py_leb_le in Hhp.
Qed.

(** C1, as the code has it.  The coupling is kept by [update_combat_state]:
    after any sequence of such calls on a fresh world state, Attacking
    implies Combat.  The character state leaves Combat in three ways only:
    [update_combat_state] to a None that is a change (then Idle);
    [update_position] with a later clock and a move of more than 0.1
    (then Moving); [update_stats] that leaves hp at or below 0 (then
    Dead).  The last two pay no regard to the combat state. *)
Theorem C1_coupling_kept_by_update_combat_state :
  (∀ t0 (cs : list CombatState),
     spec.coupled (run (init t0) (map UpdateCombatState cs)))
  ∧ (∀ g o,
       character_state g = COMBAT →
       character_state (apply_op g o) ≠ COMBAT →
       match o with
       | UpdateCombatState c =>
           c = NONE ∧ combat_state g ≠ NONE
           ∧ combat_state (apply_op g o) = NONE
           ∧ character_state (apply_op g o) = IDLE
       | UpdatePosition p now =>
           last_update g < now
           ∧ spec.dist_gt (distance_to (position g) p) (1 # 10)
           ∧ character_state (apply_op g o) = MOVING
       | UpdateStats s =>
           hp (stats (apply_op g o)) <= 0
           ∧ character_state (apply_op g o) = DEAD
       end).
Proof.
  split.
  - intros t0 cs. by apply run_update_combat_state_coupled.
  - intros g [c | p now | s] Hg Hne; cbn [apply_op] in *.
    + by apply update_combat_state_leaves_combat.
    + by apply update_position_leaves_combat.
    + by apply update_stats_leaves_combat.
Qed.

(** The theorem at work: attacking after [ATTACKING; DEFENDING; ATTACKING]
    means Combat, and a later [update_combat_state NONE] is the call that
    leaves Combat. *)
Lemma C1_coupling_witness :
  character_state
    (run (init 0) (map UpdateCombatState [ATTACKING; DEFENDING; ATTACKING]))
  = COMBAT
  ∧ character_state
      (apply_op (update_combat_state (init 0) ATTACKING)
         (UpdateCombatState NONE)) = IDLE.
Proof.
  split.
  - exact (proj1 C1_coupling_kept_by_update_combat_state 0
             [ATTACKING; DEFENDING; ATTACKING] eq_refl).
  - refine (proj2 (proj2 (proj2 (proj2 C1_coupling_kept_by_update_combat_state
             (update_combat_state (init 0) ATTACKING)
             (UpdateCombatState NONE) eq_refl _)))).
    vm_compute. discriminate.
Defined.

(** C1 as stated fails: while attacking, a position update that moves the
    character makes it Moving, and the combat state stays Attacking. *)
Lemma C1_counterexample :
  combat_state
    (run (init 0)
       [UpdateCombatState ATTACKING; UpdatePosition (mkPosition 3 4 0 0) 1])
  = ATTACKING
  ∧ character_state
      (run (init 0)
         [UpdateCombatState ATTACKING; UpdatePosition (mkPosition 3 4 0 0) 1])
    = MOVING.
Proof. split; vm_compute; reflexivity. Qed.

(** C10, as the code has it.  [update_stats] merges the keys hp, mp, wp
    and stamina of the mapping into the stats and nothing else: every
    other field of the world state, the other stats among them, is
    untouched, whatever further keys the mapping holds.  The character
    state becomes Dead when the hp after the merge (the given one, or the
    current one when none is given) is at or below 0, and is untouched
    otherwise. *)
Theorem C10_update_stats_frame (g : GameState) (s : gmap string Q) :
  spec.same_outside_vitals g (update_stats g s)
  ∧ hp (stats (update_stats g s)) = default (hp (stats g)) (s !! "hp")
  ∧ mp (stats (update_stats g s)) = default (mp (stats g)) (s !! "mp")
  ∧ wp (stats (update_stats g s)) = default (wp (stats g)) (s !! "wp")
  ∧ stamina (stats (update_stats g s))
    = default (stamina (stats g)) (s !! "stamina")
  ∧ (hp (stats (update_stats g s)) <= 0 →
     character_state (update_stats g s) = DEAD)
  ∧ (0 < hp (stats (update_stats g s)) →
     character_state (update_stats g s) = character_state g).
Proof.
  unfold update_stats, spec.same_outside_vitals, get.
  destruct (leb _ _) eqn:Hhp; cbn in *.
  - apply py_leb_le in Hhp. split_and!; try done. intros H. lra.
  - apply py_leb_gt in Hhp. split_and!; try done. intros H. lra.
Qed.

(** The theorem at work: a mapping with the extra key hp_max and a fatal
    hp leaves hp_max alone and makes the character Dead. *)
Lemma C10_update_stats_witness :
  hp_max (stats (update_stats (init 0) {["hp_max" := 5; "hp" := 0]})) = 100
  ∧ character_state (update_stats (init 0) {["hp_max" := 5; "hp" := 0]})
    = DEAD.
Proof.
  pose proof (C10_update_stats_frame (init 0) {["hp_max" := 5; "hp" := 0]})
    as (Hframe & _ & _ & _ & _ & Hdead & _).
  split.
  - unfold spec.same_outside_vitals in Hframe. by destruct_and!.
  - apply Hdead. vm_compute. discriminate.
Defined.

(** C10 as stated fails: the character state also changes when no hp is
    given.  After a fatal hp and a move, the character is Moving with hp 0;
    a stats update that gives mp only makes it Dead again. *)
Lemma C10_counterexample :
  character_state
    (run (init 0)
       [UpdateStats {["hp" := 0]}; UpdatePosition (mkPosition 3 4 0 0) 1])
  = MOVING
  ∧ ({["mp" := 50]} : gmap string Q) !! "hp" = None
  ∧ character_state
      (update_stats
         (run (init 0)
            [UpdateStats {["hp" := 0]}; UpdatePosition (mkPosition 3 4 0 0) 1])
         {["mp" := 50]})
    = DEAD.
Proof. split_and!; vm_compute; reflexivity. Qed.

End world_state.

(** ** Route progress: stuck detection *)

Section stuck_detection.
Import py route_manager.
Local Open Scope Z_scope.

Lemma update_position_under self last p :
  last_position self = Some last →
  spec.dist_lt (distance_to p last) 1 →
  stuck_counter (update_position self p) = stuck_counter self + 1.
Proof.
  intros Hl Hd. apply dist_ltb_lt in Hd.
  unfold update_position. by rewrite Hl, Hd.
Qed.

Lemma update_position_at_least self last p :
  last_position self = Some last →
  spec.dist_ge (distance_to p last) 1 →
  stuck_counter (update_position self p) = 0.
Proof.
  intros Hl Hd. apply dist_ltb_ge in Hd.
  unfold update_position. by rewrite Hl, Hd.
Qed.

Lemma is_stuck_iff self : is_stuck self = true ↔ 10 < stuck_counter self.
Proof. unfold is_stuck. apply Z.ltb_lt. Qed.

Lemma run_all_under self last ps :
  last_position self = Some last →
  spec.all_moves_under 1 last ps →
  stuck_counter (run self ps) = stuck_counter self + Z.of_nat (length ps).
Proof.
  revert self last. induction ps as [|p ps IH]; intros self last Hl Hall.
  - cbn. lia.
  - destruct Hall as [Hp Hall]. cbn [run foldl].
    change (foldl update_position ?s ps) with (run s ps).
    rewrite (IH (update_position self p) p); [|done|done].
    rewrite (update_position_under self last p) by done.
    cbn [length]. lia.
Qed.

(** C9.  Once a last position is known, an update that moved under 1.0
    unit adds one to the stuck counter and an update that moved at least
    1.0 unit sets it to 0; [is_stuck] is true exactly when the counter
    exceeds 10; hence, from a counter of 0, a run of consecutive movements
    under 1.0 unit makes [is_stuck] true exactly from the 11th on. *)
Theorem C9_stuck_counter :
  (∀ self last p,
     last_position self = Some last →
     (spec.dist_lt (distance_to p last) 1 →
      stuck_counter (update_position self p) = stuck_counter self + 1)
     ∧ (spec.dist_ge (distance_to p last) 1 →
        stuck_counter (update_position self p) = 0))
  ∧ (∀ self, is_stuck self = true ↔ 10 < stuck_counter self)
  ∧ (∀ self last ps,
       last_position self = Some last →
       stuck_counter self = 0 →
       spec.all_moves_under 1 last ps →
       stuck_counter (run self ps) = Z.of_nat (length ps)
       ∧ (is_stuck (run self ps) = true ↔ (11 <= length ps)%nat)).
Proof.
  split_and!.
  - intros self last p Hl. split.
    + by apply update_position_under.
    + by apply update_position_at_least.
  - apply is_stuck_iff.
  - intros self last ps Hl H0 Hall.
    pose proof (run_all_under self last ps Hl Hall) as Hrun.
    rewrite H0 in Hrun. split; [lia|].
    rewrite is_stuck_iff, Hrun. lia.
Qed.

(** The theorem at work on a character that stands still at the origin:
    ten further updates do not make it stuck, the eleventh does, and a
    step of 3 units resets the counter. *)
Lemma C9_stuck_counter_witness :
  is_stuck (run (update_position init (mkPosition 0 0 0))
              (replicate 10 (mkPosition 0 0 0))) = false
  ∧ is_stuck (run (update_position init (mkPosition 0 0 0))
                (replicate 11 (mkPosition 0 0 0))) = true
  ∧ stuck_counter
      (update_position
         (run (update_position init (mkPosition 0 0 0))
            (replicate 11 (mkPosition 0 0 0)))
         (mkPosition 3 0 0)) = 0.
Proof.
  destruct C9_stuck_counter as (Hstep & Hstuck & Hrun).
  assert (Hall : ∀ n, spec.all_moves_under 1 (mkPosition 0 0 0)
                        (replicate n (mkPosition 0 0 0))).
  { induction n as [|n IH]; [exact I|]. split; [|exact IH].
    vm_compute. split; reflexivity. }
  set (o := mkPosition 0 0 0) in *.
  pose proof (Hrun (update_position init o) o (replicate 10 o)
                eq_refl eq_refl (Hall 10%nat)) as [_ H10].
  pose proof (Hrun (update_position init o) o (replicate 11 o)
                eq_refl eq_refl (Hall 11%nat)) as [_ H11].
  split_and!.
  - apply not_true_is_false. intros H. apply H10 in H. cbn in H. lia.
  - apply H11. cbn. lia.
  - refine (proj2 (Hstep (run (update_position init o) (replicate 11 o))
                     o (mkPosition 3 0 0) eq_refl) _).
    right. vm_compute. discriminate.
Defined.

End stuck_detection.

(** ** World state: skill cooldowns *)

Section cooldowns.
Import py game_state skill_calls.
Local Open Scope Q_scope.

Lemma clock_ok_snoc calls t c now :
  clock_ok (calls ++ [(t, c)]) now ↔ clock_ok calls t ∧ t <= now.
Proof.
  induction calls as [|[t1 c1] calls IH]; cbn [app clock_ok].
  - tauto.
  - rewrite IH. destruct calls as [|[t2 c2] calls]; cbn [app]; tauto.
Qed.

Lemma lookup_expired (cds : gmap string SkillCooldown) now id :
  id ∈ expired_skills cds now ↔
  ∃ cd, cds !! id = Some cd ∧ remaining_time cd <= now.
Proof.
  unfold expired_skills. rewrite list_elem_of_fmap. split.
  - intros ([id' cd] & -> & Hin). apply list_elem_of_filter in Hin as [He Hin].
    apply elem_of_map_to_list in Hin. cbn in *.
    exists cd. split; [done|]. by apply py_geb_ge.
  - intros (cd & Hcd & Hle). exists (id, cd). split; [done|].
    apply list_elem_of_filter. split.
    + cbn. by apply py_geb_ge.
    + by apply elem_of_map_to_list.
Qed.

Lemma run_table_agrees t0 calls id T :
  clock_ok calls T → spec.table_agrees (run (init t0) calls) id calls T.
Proof.
  revert T. induction calls as [|[t c] calls IH] using rev_ind; intros T Hok.
  - unfold spec.table_agrees. cbn. rewrite lookup_empty. by left.
  - apply clock_ok_snoc in Hok as [Hok Ht].
    specialize (IH t Hok). unfold spec.table_agrees in *.
    unfold run, last_start in *. rewrite !foldl_snoc.
    set (g := foldl apply_call (init t0) calls) in *.
    unfold apply_call at 1. cbn [fst snd].
    destruct c as [id' d | | id']; cbn [fst snd].
    + unfold start_skill_cooldown. cbn [skill_cooldowns set_skill_cooldowns].
      destruct (String.eqb_spec id' id) as [->|Hne].
      * rewrite lookup_insert_eq. by exists t, d.
      * rewrite lookup_insert_ne by done.
        destruct (skill_cooldowns g !! id); [done|].
        destruct IH as [IH | (t1 & d1 & IH & Hle)]; [by left|right].
        exists t1, d1. split; [done|lra].
    + unfold update_skill_cooldowns.
      cbn [skill_cooldowns set_skill_cooldowns].
      destruct (skill_cooldowns g !! id) as [cd|] eqn:Hcd.
      * destruct IH as (t1 & d1 & IH & Hrem).
        destruct (Qlt_le_dec t (remaining_time cd)) as [Hlt|Hle].
        -- rewrite lookup_foldr_delete_not_elem_of, Hcd; [by exists t1, d1|].
           rewrite lookup_expired. intros (cd' & Hcd' & Hle).
           simplify_eq. lra.
        -- rewrite lookup_foldr_delete.
           ++ right. exists t1, d1. split; [done|]. rewrite <- Hrem. lra.
           ++ apply lookup_expired. by exists cd.
      * rewrite lookup_foldr_delete_not_elem_of, Hcd.
        -- destruct IH as [IH | (t1 & d1 & IH & Hle)]; [by left|right].
           exists t1, d1. split; [done|lra].
        -- rewrite lookup_expired. intros (cd' & Hcd' & _). congruence.
    + destruct (skill_cooldowns g !! id); [done|].
      destruct IH as [IH | (t1 & d1 & IH & Hle)]; [by left|right].
      exists t1, d1. split; [done|lra].
Qed.

(** C6, as the code has it.  On a clock that never goes back, after any
    interleaving of the three cooldown calls on a fresh world state,
    [can_use_skill id] is true exactly when no cooldown was ever started
    for [id], or the time since the most recent start is at least the
    duration given then (the boundary is inclusive). *)
Theorem C6_can_use_skill t0 (calls : list (Q * call)) (id : string) (now : Q) :
  clock_ok calls now →
  can_use_skill (run (init t0) calls) id now = true
  ↔ last_start id calls = None
    ∨ ∃ t d, last_start id calls = Some (t, d) ∧ d <= now - t.
Proof.
  intros Hok. pose proof (run_table_agrees t0 calls id now Hok) as H.
  unfold spec.table_agrees, can_use_skill in *.
  destruct (skill_cooldowns (run (init t0) calls) !! id) as [cd|].
  - destruct H as (t & d & Hlast & Hrem). rewrite py_geb_ge, Hrem. split.
    + intros Hle. right. exists t, d. split; [done|lra].
    + intros [Hnone | (t' & d' & Hlast' & Hle)]; [congruence|].
      simplify_eq. lra.
  - split; [|done]. intros _.
    destruct H as [H | (t & d & Hlast & Hle)]; [by left|right].
    exists t, d. split; [done|lra].
Qed.

(** The theorem at work: started at 0 for 5 seconds and swept at 2, the
    skill is refused at 4 and allowed at 7. *)
Lemma C6_can_use_skill_witness :
  can_use_skill
    (run (init 0)
       [(0, StartSkillCooldown "slash" 5); (2, UpdateSkillCooldowns)])
    "slash" 7 = true
  ∧ can_use_skill
      (run (init 0)
         [(0, StartSkillCooldown "slash" 5); (2, UpdateSkillCooldowns)])
      "slash" 4 = false.
Proof.
  split.
  - apply (C6_can_use_skill 0
             [(0, StartSkillCooldown "slash" 5); (2, UpdateSkillCooldowns)]
             "slash" 7).
    + vm_compute. repeat split; discriminate.
    + right. exists 0, 5. split; [reflexivity|]. vm_compute. discriminate.
  - apply not_true_is_false. intros H.
    apply (C6_can_use_skill 0
             [(0, StartSkillCooldown "slash" 5); (2, UpdateSkillCooldowns)]
             "slash" 4) in H.
    + destruct H as [H | (t & d & H & Hle)]; [discriminate|].
      vm_compute in H. injection H as <- <-. vm_compute in Hle. by apply Hle.
    + vm_compute. repeat split; discriminate.
Defined.

(** C6 as stated fails at the boundary: 5 seconds after a start for 5
    seconds the elapsed time does not exceed the duration, and the skill
    is allowed. *)
Lemma C6_counterexample :
  last_start "slash" [(0, StartSkillCooldown "slash" 5)] = Some (0, 5)
  ∧ 5 - 0 <= 5
  ∧ can_use_skill (run (init 0) [(0, StartSkillCooldown "slash" 5)])
      "slash" 5 = true.
Proof. split_and!; vm_compute; try reflexivity. discriminate. Qed.

End cooldowns.

(** ** Combos: key events *)

Section key_events.
Import py game_state input_handler combo_manager.

Lemma emit_nil ih : emit [] ih = ih.
Proof. destruct ih. unfold emit. cbn. by rewrite app_nil_r. Qed.

Lemma emit_emit a b ih : emit b (emit a ih) = emit (a ++ b) ih.
Proof. unfold emit. cbn. by rewrite app_assoc. Qed.

Lemma foldl_emit {A} (f : InputHandler → A → InputHandler)
  (e : A → list KeyEvent) :
  (∀ ih k, f ih k = emit (e k) ih) →
  ∀ ks ih, foldl f ih ks = emit (ks ≫= e) ih.
Proof.
  intros Hf. induction ks as [|k ks IH]; intros ih; cbn.
  - by rewrite emit_nil.
  - by rewrite IH, Hf, emit_emit.
Qed.

Lemma release_keys_emit ks ih : release_keys ks ih = emit (KeyUp <$> ks) ih.
Proof.
  unfold release_keys.
  rewrite (foldl_emit release_key (λ k, [KeyUp k])) by done.
  f_equal.
Qed.

Lemma apply_action_emits a : ∃ es, ∀ ih, apply_action a ih = emit es ih.
Proof.
  unfold apply_action. repeat case_match.
  - eexists. intros ih.
    by rewrite (foldl_emit press_key (λ k, [KeyDown k; KeyUp k])).
  - eexists. intros ih.
    by rewrite release_keys_emit,
         (foldl_emit hold_key (λ k, [KeyDown k])), emit_emit.
  - eexists. intros ih. by rewrite release_keys_emit.
  - exists []. intros ih. by rewrite emit_nil.
Qed.

Lemma apply_action_emit a ih :
  apply_action a ih = emit (spec.action_events a) ih.
Proof.
  unfold spec.action_events. destruct (apply_action_emits a) as [es Hes].
  by rewrite !Hes.
Qed.

(** The keys that are down after further key events. *)
Lemma held_app es es' :
  held (es ++ es') = foldl (λ h e, held_after e h) (held es) es'.
Proof. unfold held. by rewrite foldl_app. Qed.

Lemma held_release_from (h : gset string) ks :
  foldl (λ h e, held_after e h) h (KeyUp <$> ks) = h ∖ list_to_set ks.
Proof.
  revert h. induction ks as [|k ks IH]; intros h; cbn.
  - set_solver.
  - rewrite IH. set_solver.
Qed.

Lemma held_released es ks :
  held (es ++ (KeyUp <$> ks)) = held es ∖ list_to_set ks.
Proof. by rewrite held_app, held_release_from. Qed.

End key_events.

(** ** Combos: execution *)

Section combo_execution.
Import py game_state input_handler combo_manager.
Local Open Scope Q_scope.

Lemma release_all_keys_self o : self (release_all_keys o) = self o.
Proof. unfold release_all_keys. by repeat case_match. Qed.

Lemma release_all_keys_game_state o :
  game_state (release_all_keys o) = game_state o.
Proof. unfold release_all_keys. by repeat case_match. Qed.

Lemma release_all_keys_events o :
  input_handler (release_all_keys o)
  = emit (KeyUp <$> spec.abort_keys (self o)) (input_handler o).
Proof.
  unfold release_all_keys, spec.abort_keys, combos_contains.
  cbn [self with_input_handler input_handler].
  destruct (current_combo (self o)) as [current|];
    [destruct (truthy current);
     [destruct (combos_get (combos (self o)) current) as [combo|]|]|];
    cbn; rewrite ?release_keys_emit; unfold release_key;
    by rewrite !emit_emit.
Qed.

(** The loop changes neither the manager nor, when nothing else writes,
    the world state. *)
Lemma run_actions_self world acts i o :
  self (fst (run_actions world acts i o)) = self o.
Proof.
  revert i o. induction acts as [|a acts IH]; intros i o; cbn; [done|].
  case_match; cbn.
  - apply release_all_keys_self.
  - by rewrite IH.
Qed.

Lemma run_actions_completed world acts i o o' :
  run_actions world acts i o = (o', true) →
  game_state o' = spec.world_after world i (length acts) (game_state o).
Proof.
  revert i o. induction acts as [|a acts IH]; intros i o; cbn.
  - by intros [= <-].
  - case_match; [done|]. intros Hrun. by apply IH in Hrun.
Qed.

(** The loop when step [k] is the first to be cancelled: the steps
    before it ran, then the keys were released. *)
Lemma run_actions_cancelled world acts k i o :
  (k < length acts)%nat →
  (∀ j, (j < k)%nat →
        _check_action_conditions
          (spec.world_after world i j (game_state o)) = true) →
  _check_action_conditions (spec.world_after world i k (game_state o)) = false →
  run_actions world acts i o
  = (release_all_keys
       (mkObjects (self o) (spec.world_after world i k (game_state o))
          (emit (take k acts ≫= spec.action_events) (input_handler o))),
     false).
Proof.
  revert acts i o. induction k as [|k IH]; intros acts i o Hk Hbefore Hat.
  - destruct acts as [|a acts]; [cbn in Hk; lia|].
    cbn in *. rewrite Hat. cbn. rewrite emit_nil. by destruct o.
  - destruct acts as [|a acts]; [cbn in Hk; lia|].
    pose proof (Hbefore 0%nat ltac:(lia)) as Hfirst. cbn in Hfirst.
    cbn [run_actions]. rewrite Hfirst. cbn [negb].
    rewrite IH.
    + cbn. by rewrite apply_action_emit, emit_emit.
    + cbn in Hk. lia.
    + intros j Hj. apply (Hbefore (S j)). lia.
    + exact Hat.
Qed.

Lemma execute_combo_accepted o combo_name combo now done world :
  spec.accepted o combo_name combo now →
  execute_combo o combo_name now done world
  = match run_actions world (actions combo) 0
            (spec.started o combo_name now) with
    | (o, false) => (with_self (set_current_combo None) o, false)
    | (o, true) =>
        (with_self (set_current_combo None)
           (with_game_state (λ g, _consume_mp g combo)
              (with_game_state (λ g, _start_cooldown g combo done)
                 (with_self (λ c, set_total_skills (total_skills c + 1) c)
                    (with_self
                       (λ c, set_successful_skills (successful_skills c + 1) c)
                       o)))),
         true)
    end.
Proof. intros [Hget Hcheck]. unfold execute_combo. by rewrite Hget, Hcheck. Qed.

Lemma world_after_quiet i n g : spec.world_after (λ _ g, g) i n g = g.
Proof. revert i. induction n as [|n IH]; intros i; cbn; [done|]. apply IH. Qed.

(** C3, as the code has it.  When the cancellation check of an accepted
    combo first fails before step [k], [execute_combo] returns failure,
    and what it has sent to the device is: the events of the steps before
    [k], then the release of the modifier keys, then, provided the name of
    the combo is not the empty string, the release of every key of every
    step.  With a non-empty name no key of the combo is left down.  Under
    the empty name [release_all_keys] takes no combo to be in flight and
    releases the modifier keys only. *)
Theorem C3_cancel_releases o combo_name combo now done world k :
  spec.accepted o combo_name combo now →
  (k < length (actions combo))%nat →
  spec.cancelled_at world k (game_state o) →
  let r := execute_combo o combo_name now done world in
  snd r = false
  ∧ events (input_handler (fst r))
    = events (input_handler o)
      ++ (take k (actions combo) ≫= spec.action_events)
      ++ (KeyUp <$> mod_keys
                    ++ (if truthy combo_name then combo_keys combo else []))
  ∧ (truthy combo_name = true →
     ∀ key, key ∈ combo_keys combo →
            key ∉ held (events (input_handler (fst r)))).
Proof.
  intros Hacc Hk [Hbefore Hat]. cbn zeta.
  rewrite (execute_combo_accepted _ _ _ _ _ _ Hacc).
  rewrite (run_actions_cancelled world (actions combo) k 0); [|done..].
  cbn [fst snd with_self input_handler].
  rewrite release_all_keys_events. cbn [self input_handler emit events].
  destruct Hacc as [Hget _].
  assert (Hkeys : spec.abort_keys (self (spec.started o combo_name now))
                  = mod_keys
                    ++ (if truthy combo_name then combo_keys combo else [])).
  { unfold spec.abort_keys, spec.started, with_self, append_history,
      set_combo_history, set_last_combo_time, set_current_combo.
    cbn [self current_combo combos]. by rewrite Hget. }
  change (input_handler (spec.started o combo_name now))
    with (input_handler o).
  rewrite Hkeys. split_and!; [done|by rewrite app_assoc|].
  intros Htruthy key Hkey. rewrite Htruthy, held_released.
  set_solver.
Qed.

(** The theorem at the empty name: the combo loaded as [""] is cancelled
    before its second step, and the keys w and f of that step are not
    among the released ones. *)
Lemma C3_cancel_releases_witness :
  snd (execute_combo (samples.objects [("", samples.unnamed)] (game_state.init 0))
         "" 100 102 samples.stun_during_first) = false
  ∧ events (input_handler
              (fst (execute_combo
                      (samples.objects [("", samples.unnamed)] (game_state.init 0))
                      "" 100 102 samples.stun_during_first)))
    = [KeyDown "q"; KeyUp "q"; KeyUp "shift"; KeyUp "ctrl"; KeyUp "alt"].
Proof.
  assert (H : spec.cancelled_at samples.stun_during_first 1
                (game_state.init 0)).
  { split; [|reflexivity]. intros j Hj.
    assert (j = 0%nat) as -> by lia. reflexivity. }
  destruct (C3_cancel_releases
              (samples.objects [("", samples.unnamed)] (game_state.init 0))
              "" samples.unnamed 100 102 samples.stun_during_first 1
              (conj eq_refl eq_refl) ltac:(cbn; lia) H) as (Hr & He & _).
  split; [exact Hr|]. rewrite He. reflexivity.
Defined.

(** C4, as the code has it.  An accepted call that completes adds one to
    both counters, starts the cooldown of the combo at the time of
    completion and takes its cost from the mp the world state then has.
    An accepted call that fails changes neither counter: the attempt is
    not counted. *)
Theorem C4_counters o combo_name combo now done world :
  spec.accepted o combo_name combo now →
  let r := execute_combo o combo_name now done world in
  (snd r = true →
   successful_skills (self (fst r)) = (successful_skills (self o) + 1)%Z
   ∧ total_skills (self (fst r)) = (total_skills (self o) + 1)%Z
   ∧ skill_cooldowns (game_state (fst r)) !! name combo
     = Some (mkSkillCooldown (name combo) (done + cooldown combo)
               (cooldown combo))
   ∧ mp (stats (game_state (fst r)))
     = mp (stats (spec.world_after world 0 (length (actions combo))
                    (game_state o)))
       - mp_cost combo)
  ∧ (snd r = false →
     successful_skills (self (fst r)) = successful_skills (self o)
     ∧ total_skills (self (fst r)) = total_skills (self o)).
Proof.
  intros Hacc. cbn zeta.
  rewrite (execute_combo_accepted _ _ _ _ _ _ Hacc).
  pose proof (run_actions_self world (actions combo) 0
                (spec.started o combo_name now)) as Hself.
  destruct (run_actions _ _ _ _) as [o' [|]] eqn:Hrun; cbn [fst snd] in *.
  - split; [intros _|done].
    apply run_actions_completed in Hrun. cbn in Hrun.
    cbn. rewrite Hself, Hrun. cbn.
    split_and!; try done. unfold _start_cooldown, start_skill_cooldown.
    cbn. by rewrite lookup_insert_eq.
  - split; [done|intros _]. cbn. by rewrite Hself.
Qed.

(** The theorem at a cancelled call and at a completed one: when the
    character is stunned as the combo starts, the call fails and no attempt
    is counted; on a healthy character the call completes and is counted. *)
Lemma C4_counters_witness :
  snd (execute_combo
         (samples.objects [("slash", samples.slash)] samples.stunned)
         "slash" 100 102 samples.quiet) = false
  ∧ total_skills
      (self (fst (execute_combo
                    (samples.objects [("slash", samples.slash)] samples.stunned)
                    "slash" 100 102 samples.quiet))) = 0%Z
  ∧ total_skills
      (self (fst (execute_combo
                    (samples.objects [("slash", samples.slash)]
                       (game_state.init 0))
                    "slash" 100 102 samples.quiet))) = 1%Z.
Proof.
  split_and!; [reflexivity| |].
  - exact (proj2 (proj2 (C4_counters
                    (samples.objects [("slash", samples.slash)] samples.stunned)
                    "slash" samples.slash 100 102 samples.quiet
                    (conj eq_refl eq_refl)) eq_refl)).
  - exact (proj1 (proj2 (proj1 (C4_counters
                    (samples.objects [("slash", samples.slash)]
                       (game_state.init 0))
                    "slash" samples.slash 100 102 samples.quiet
                    (conj eq_refl eq_refl)) eq_refl))).
Defined.

(** C5, as the code has it.  The debit is a plain subtraction: the mp
    after it is the mp before it less the cost, so it is non-negative
    exactly when the cost does not exceed the mp at the time of the debit.
    That is the case when nothing wrote to the world state while the combo
    ran, for the call was accepted on the same mp.  The next resource
    check reads the debited value. *)
Theorem C5_debit_is_plain_subtraction :
  (∀ g combo,
     mp (stats (_consume_mp g combo)) = mp (stats g) - mp_cost combo
     ∧ (0 <= mp (stats (_consume_mp g combo)) ↔ mp_cost combo <= mp (stats g)))
  ∧ (∀ o combo_name now done o',
       execute_combo o combo_name now done (λ _ g, g) = (o', true) →
       0 <= mp (stats (game_state o')))
  ∧ (∀ o g combo next now,
       mp (stats (_consume_mp g combo)) < mp_cost next →
       _check_combo_conditions
         (mkObjects (self o) (_consume_mp g combo) (input_handler o))
         next now = false).
Proof.
  split_and!.
  - intros g combo. split; [done|]. cbn. split; intros H; lra.
  - intros o combo_name now done o'. unfold execute_combo.
    destruct (combos_get _ _) as [combo|]; [|done].
    destruct (_check_combo_conditions o combo now) eqn:Hcheck; [|done].
    cbn [negb]. destruct (run_actions _ _ _ _) as [o2 [|]] eqn:Hrun; [|done].
    intros [= <-]. apply run_actions_completed in Hrun.
    rewrite world_after_quiet in Hrun. cbn in Hrun. cbn. rewrite Hrun.
    unfold _check_combo_conditions in Hcheck.
    destruct (negb _); [done|].
    destruct (ltb _ _) eqn:Hmp; [done|]. apply py_ltb_ge in Hmp. cbn. lra.
  - intros o g combo next now Hlt. unfold _check_combo_conditions.
    destruct (negb _); [done|]. cbn [game_state].
    by rewrite (proj2 (py_ltb_lt _ _) Hlt).
Qed.

(** The theorem at a quiet run: 100 mp less a cost of 30. *)
Lemma C5_debit_witness :
  0 <= mp (stats (game_state
                    (fst (execute_combo
                            (samples.objects [("slash", samples.slash)]
                               (game_state.init 0))
                            "slash" 100 102 (λ _ g, g))))).
Proof.
  exact (proj1 (proj2 C5_debit_is_plain_subtraction)
           (samples.objects [("slash", samples.slash)] (game_state.init 0))
           "slash" 100 102
           (fst (execute_combo
                   (samples.objects [("slash", samples.slash)]
                      (game_state.init 0))
                   "slash" 100 102 (λ _ g, g)))
           eq_refl).
Defined.

(** C5 as stated fails: the combo is accepted on 100 mp, a reading of 10 mp
    arrives while its first step is suspended, the combo completes and
    the debit of 30 leaves the mp negative. *)
Lemma C5_counterexample :
  snd (execute_combo
         (samples.objects [("slash", samples.slash)] (game_state.init 0))
         "slash" 100 102 samples.drain_during_first) = true
  ∧ mp (stats (game_state
                 (fst (execute_combo
                         (samples.objects [("slash", samples.slash)]
                            (game_state.init 0))
                         "slash" 100 102 samples.drain_during_first)))) < 0.
Proof. split; vm_compute; reflexivity. Qed.

End combo_execution.

(** ** Mob tracking *)

Section tracking.
Import py game_state mob_controller.
Local Open Scope Q_scope.

Lemma dict_set_Forall (P : Z * MobInfo → Prop) d k v :
  Forall P d → P (k, v) → Forall P (dict_set d k v).
Proof.
  intros Hd Hv. induction Hd as [|[k' v'] d Hkv Hd IH]; cbn.
  - by constructor.
  - case_match; by constructor.
Qed.

Lemma dict_contains_keys d k : dict_contains d k = true ↔ k ∈ dict_keys d.
Proof.
  unfold dict_contains, dict_keys. rewrite existsb_exists, list_elem_of_fmap.
  split.
  - intros ([k' v] & Hin & Hk). apply Z.eqb_eq in Hk. cbn in Hk. subst k'.
    exists (k, v). split; [done|]. by apply list_elem_of_In.
  - intros ([k' v] & -> & Hin). exists (k', v). split.
    + by apply list_elem_of_In.
    + apply Z.eqb_refl.
Qed.

(** A mob that the loop over the detections has put into [current_mobs]
    was seen in this cycle. *)
Lemma process_detection_seen player_pos now st detection :
  Forall (λ kv, last_seen (snd kv) = now) (snd st) →
  Forall (λ kv, last_seen (snd kv) = now)
         (snd (process_detection player_pos now st detection)).
Proof.
  destruct st as [self current]. cbn [snd]. intros H.
  unfold process_detection.
  destruct (_find_matching_mob _ _ _) as [tracked_mob|].
  - cbn [snd]. by apply dict_set_Forall.
  - destruct (_generate_mob_id self) as [self' id].
    destruct (det_bbox detection) as [[[? ?] w] h]. cbn [snd].
    by apply dict_set_Forall.
Qed.

Lemma process_detections_seen player_pos now detections st :
  Forall (λ kv, last_seen (snd kv) = now) (snd st) →
  Forall (λ kv, last_seen (snd kv) = now)
         (snd (foldl (process_detection player_pos now) st detections)).
Proof.
  revert st. induction detections as [|d ds IH]; intros st H; cbn; [done|].
  by apply IH, process_detection_seen.
Qed.

Lemma process_frame_tracked o detections now :
  tracked_mobs (self (fst (fst (process_frame o detections now))))
  = snd (foldl (process_detection (game_state.position (game_state o)) now)
               (self o, []) detections).
Proof.
  unfold process_frame.
  destruct (foldl _ _ _) as [self' current].
  by destruct (update_mobs _ _).
Qed.

(** The loop over the detections never reads the memory window. *)
Lemma store_object_memory_time mob m self :
  store_object mob (set_mob_memory_time m self)
  = set_mob_memory_time m (store_object mob self).
Proof.
  unfold store_object. cbn [tracked_mobs set_mob_memory_time].
  destruct (dict_contains _ _);
    cbn [current_target set_tracked_mobs set_mob_memory_time];
    (destruct (current_target self) as [target|];
     [destruct (Z.eqb _ _)|]); reflexivity.
Qed.

Lemma process_detection_memory_time player_pos now m self current detection :
  process_detection player_pos now (set_mob_memory_time m self, current)
    detection
  = (set_mob_memory_time m
       (fst (process_detection player_pos now (self, current) detection)),
     snd (process_detection player_pos now (self, current) detection)).
Proof.
  unfold process_detection.
  change (_find_matching_mob (set_mob_memory_time m self))
    with (_find_matching_mob self).
  destruct (_find_matching_mob self _ _) as [tracked_mob|].
  - cbn [fst snd]. by rewrite store_object_memory_time.
  - cbn. by destruct (det_bbox detection) as [[[? ?] ?] ?].
Qed.

Lemma process_detections_memory_time player_pos now m detections self current :
  snd (foldl (process_detection player_pos now)
             (set_mob_memory_time m self, current) detections)
  = snd (foldl (process_detection player_pos now) (self, current) detections).
Proof.
  revert self current.
  induction detections as [|d ds IH]; intros self current; cbn [foldl];
    [done|].
  rewrite process_detection_memory_time.
  destruct (process_detection player_pos now (self, current) d) as [self' c'].
  apply IH.
Qed.

(** C2, as the code has it.  After a cycle the controller tracks the mobs
    that a detection of this very cycle matched or created, and no other:
    every tracked mob was last seen at the cycle time, and a cycle without
    detections leaves nothing tracked.  The table built from the detections
    replaces the old one right after the purge of the old one, so the
    length of the memory window has no effect on what is tracked, and a mob
    that no detection matched is dropped at once. *)
Theorem C2_tracked_were_seen_this_cycle :
  (∀ (o : Objects) (detections : list Detection) (now : Q),
     Forall (λ kv, last_seen (snd kv) = now)
            (tracked_mobs (self (fst (fst (process_frame o detections now))))))
  ∧ (∀ (o : Objects) (now : Q),
       tracked_mobs (self (fst (fst (process_frame o [] now)))) = [])
  ∧ (∀ (o : Objects) (detections : list Detection) (now window : Q),
       tracked_mobs
         (self (fst (fst (process_frame
                            (mkObjects (set_mob_memory_time window (self o))
                               (game_state o))
                            detections now))))
       = tracked_mobs (self (fst (fst (process_frame o detections now))))).
Proof.
  split_and!.
  - intros o detections now. rewrite process_frame_tracked.
    by apply process_detections_seen.
  - intros o now. by rewrite process_frame_tracked.
  - intros o detections now window. rewrite !process_frame_tracked.
    cbn [self game_state]. apply process_detections_memory_time.
Qed.

(** The wolf was seen at 10.  In a cycle at 10.5 with no detection it is
    no longer tracked, half a second after it was seen; with a detection
    far from it, the new boar is all that is tracked. *)
Lemma C2_wolf_dropped_witness :
  tracked_mobs
    (self (fst (fst (process_frame
                       (mkObjects samples.tracking_wolf (game_state.init 0))
                       [] (21 # 2))))) = []
  ∧ dict_keys
      (tracked_mobs
         (self (fst (fst (process_frame
                            (mkObjects samples.tracking_wolf (game_state.init 0))
                            [samples.boar_far] (21 # 2)))))) = [2%Z]
  ∧ Forall (λ kv, last_seen (snd kv) = 21 # 2)
      (tracked_mobs
         (self (fst (fst (process_frame
                            (mkObjects samples.tracking_wolf (game_state.init 0))
                            [samples.boar_far] (21 # 2)))))).
Proof.
  destruct C2_tracked_were_seen_this_cycle as (Hseen & Hnone & _).
  split_and!.
  - exact (Hnone (mkObjects samples.tracking_wolf (game_state.init 0))
             (21 # 2)).
  - reflexivity.
  - exact (Hseen (mkObjects samples.tracking_wolf (game_state.init 0))
             [samples.boar_far] (21 # 2)).
Defined.

Lemma is_target_valid_false (c : MobController) :
  is_target_valid c = false
  ↔ current_target c = None
    ∨ ∃ target, current_target c = Some target
                ∧ (mob_id target ∉ dict_keys (tracked_mobs c)
                   ∨ spec.dist_gt (distance target) (max_chase_distance c)).
Proof.
  unfold is_target_valid. destruct (current_target c) as [target|].
  - destruct (dict_contains _ _) eqn:Hin; cbn [negb].
    + apply dict_contains_keys in Hin.
      destruct (dist_gtb _ _) eqn:Hd.
      * apply dist_gtb_gt in Hd. split; [|done]. intros _. right.
        exists target. split; [done|by right].
      * split; [done|]. intros [|(t & [= <-] & [Hnot|Hgt])]; [done|done|].
        apply dist_gtb_gt in Hgt. congruence.
    + split; [|done]. intros _. right. exists target. split; [done|left].
      intros Hk. apply dict_contains_keys in Hk. congruence.
  - split; [|done]. intros _. by left.
Qed.

End tracking.

(** ** Combat: target validity and the PvP gate *)

Section combat.
Import py game_state input_handler combat_system.
Local Open Scope Q_scope.

(** C8, as the code has it.  There are two checks.  The one the combat
    cycle uses, [CombatSystem._is_target_valid], is false exactly when
    there is no target, or the target is farther from the character than
    the maximum chase distance, or its health is at or below 0; it counts
    a kill exactly when the target is within reach with health at or
    below 0, and changes nothing otherwise; it does not ask whether the
    target is still tracked.  [MobController.is_target_valid] is false
    exactly when there is no target, or the id of the target is not
    tracked, or its recorded distance exceeds the maximum chase distance;
    it reads no health and counts nothing. *)
Theorem C8_target_validity :
  (∀ o,
     (snd (_is_target_valid o) = false
      ↔ current_target (self o) = None
        ∨ ∃ target,
            current_target (self o) = Some target
            ∧ (spec.dist_gt
                 (distance_to (position (game_state o))
                    (mob_controller.position target))
                 (max_chase_distance (self o))
               ∨ mob_controller.health target <= 0))
     ∧ (∀ target,
          current_target (self o) = Some target →
          spec.dist_le
            (distance_to (position (game_state o))
               (mob_controller.position target))
            (max_chase_distance (self o)) →
          mob_controller.health target <= 0 →
          fst (_is_target_valid o) = with_self spec.count_kill o)
     ∧ (current_target (self o) = None
        ∨ (∃ target,
             current_target (self o) = Some target
             ∧ (spec.dist_gt
                  (distance_to (position (game_state o))
                     (mob_controller.position target))
                  (max_chase_distance (self o))
                ∨ 0 < mob_controller.health target)) →
        fst (_is_target_valid o) = o))
  ∧ (∀ c : mob_controller.MobController,
       mob_controller.is_target_valid c = false
       ↔ mob_controller.current_target c = None
         ∨ ∃ target,
             mob_controller.current_target c = Some target
             ∧ (mob_controller.mob_id target
                  ∉ mob_controller.dict_keys (mob_controller.tracked_mobs c)
                ∨ spec.dist_gt (mob_controller.distance target)
                    (mob_controller.max_chase_distance c))).
Proof.
  split; [|apply is_target_valid_false].
  intros o. unfold _is_target_valid.
  destruct (current_target (self o)) as [target|].
  - destruct (dist_gtb _ _) eqn:Hd.
    + pose proof (proj1 (dist_gtb_gt _ _) Hd) as Hgt. cbn [fst snd].
      split_and!; [|intros t [= <-] Hle|done].
      * split; [|done]. intros _. right. exists target. split; [done|by left].
      * apply dist_gtb_le in Hle. congruence.
    + pose proof (proj1 (dist_gtb_le _ _) Hd) as Hle.
      destruct (leb _ _) eqn:Hh; cbn [fst snd].
      * apply py_leb_le in Hh. split_and!; [|done|].
        -- split; [|done]. intros _. right. exists target.
           split; [done|by right].
        -- intros [|(t & [= <-] & [Hgt|Hpos])]; [done| |lra].
           apply dist_gtb_gt in Hgt. congruence.
      * apply py_leb_gt in Hh. split_and!; [|intros t [= <-] _ ?; lra|done].
        split; [done|]. intros [|(t & [= <-] & [Hgt|Hdead])]; [done| |lra].
        apply dist_gtb_gt in Hgt. congruence.
  - cbn [fst snd]. split_and!; [|done|done]. split; [|done]. by left.
Qed.

(** The theorem at a wolf with no health left that stands next to the
    character: the check is false and counts one kill. *)
Lemma C8_target_validity_witness :
  snd (_is_target_valid
         (samples.fighting (samples.wolf_with 0 (mkPosition 1 0 0 0)) [] []))
  = false
  ∧ kills (metrics (self (fst (_is_target_valid
         (samples.fighting (samples.wolf_with 0 (mkPosition 1 0 0 0)) [] [])))))
    = 1%Z.
Proof.
  pose proof (proj1 C8_target_validity
                (samples.fighting (samples.wolf_with 0 (mkPosition 1 0 0 0))
                   [] [])) as (Hfalse & Hkill & _).
  split.
  - apply Hfalse. right. eexists. split; [reflexivity|]. right.
    vm_compute. discriminate.
  - rewrite (Hkill _ eq_refl); [reflexivity| |].
    + split; vm_compute; discriminate.
    + vm_compute. discriminate.
Defined.

(** C8 as stated fails on both checks.  The check of the combat cycle
    accepts a healthy wolf nearby that is no longer tracked, and counts no
    kill for a wolf with no health left that is out of reach; the check of
    the controller accepts a tracked wolf nearby with no health left. *)
Lemma C8_counterexample :
  mob_controller.dict_keys
    (mob_controller.tracked_mobs
       (mob_controller
          (samples.fighting (samples.wolf_with 100 (mkPosition 1 0 0 0)) [] [])))
  = []
  ∧ snd (_is_target_valid
           (samples.fighting (samples.wolf_with 100 (mkPosition 1 0 0 0)) [] []))
    = true
  ∧ kills (metrics (self (fst (_is_target_valid
           (samples.fighting (samples.wolf_with 0 (mkPosition 60 0 0 0)) [] [])))))
    = 0%Z
  ∧ mob_controller.is_target_valid
      (mob_controller.set_current_target
         (Some (samples.wolf_with 0 (mkPosition 1 0 0 0)))
         (mob_controller.set_tracked_mobs
            [(1%Z, samples.wolf_with 0 (mkPosition 1 0 0 0))]
            mob_controller.init))
    = true.
Proof. split_and!; vm_compute; reflexivity. Qed.

Lemma update_combat_state_sets g c : combat_state (update_combat_state g c) = c.
Proof.
  unfold update_combat_state. by repeat case_decide.
Qed.

Lemma run_actions_extends world acts i o :
  ∃ rest, events (combo_manager.input_handler
                    (fst (combo_manager.run_actions world acts i o)))
          = events (combo_manager.input_handler o) ++ rest.
Proof.
  revert i o. induction acts as [|a acts IH]; intros i o; cbn.
  - exists []. by rewrite app_nil_r.
  - case_match; cbn.
    + eexists. by rewrite release_all_keys_events.
    + destruct (IH (S i)
                  (combo_manager.with_game_state (world i)
                     (combo_manager.with_input_handler
                        (combo_manager.apply_action a) o))) as [rest Hrest].
      rewrite Hrest. cbn. rewrite apply_action_emit. cbn.
      eexists. by rewrite <- app_assoc.
Qed.

Lemma execute_combo_extends o combo_name now done world :
  ∃ rest, events (combo_manager.input_handler
                    (fst (combo_manager.execute_combo o combo_name now done
                            world)))
          = events (combo_manager.input_handler o) ++ rest.
Proof.
  unfold combo_manager.execute_combo.
  destruct (combo_manager.combos_get _ _) as [combo|];
    [|exists []; by rewrite app_nil_r].
  destruct (negb _); [exists []; by rewrite app_nil_r|].
  match goal with
  | |- context [combo_manager.run_actions ?w ?a ?i ?o'] =>
      destruct (run_actions_extends w a i o') as [rest Hrest];
      destruct (combo_manager.run_actions w a i o') as [o2 [|]]
  end; cbn in *; by exists rest.
Qed.

Lemma update_metrics_frame o t :
  in_combat (self (_update_metrics o t)) = in_combat (self o)
  ∧ current_target (self (_update_metrics o t)) = current_target (self o)
  ∧ game_state (_update_metrics o t) = game_state o
  ∧ combo_manager (_update_metrics o t) = combo_manager o
  ∧ input_handler (_update_metrics o t) = input_handler o.
Proof. unfold _update_metrics. by repeat case_match. Qed.

Lemma exit_combat_effects o loop_time :
  in_combat (self (_exit_combat o loop_time)) = false
  ∧ current_target (self (_exit_combat o loop_time)) = None
  ∧ combat_state (game_state (_exit_combat o loop_time)) = NONE
  ∧ combo_manager (_exit_combat o loop_time) = combo_manager o
  ∧ ∃ rest, events (input_handler (_exit_combat o loop_time))
            = events (input_handler o)
              ++ (KeyUp <$> combo_manager.mod_keys) ++ rest.
Proof.
  unfold _exit_combat.
  match goal with
  | |- context [_update_metrics ?o1 _] =>
      destruct (update_metrics_frame o1 loop_time)
        as (-> & -> & -> & -> & ->)
  end.
  cbn [with_combo_objects with_game_state with_self combo_objects self
       game_state combo_manager input_handler in_combat current_target
       set_in_combat set_current_target].
  rewrite release_all_keys_self, release_all_keys_game_state,
    release_all_keys_events. cbn [combo_manager.game_state
    combo_manager.self combo_manager.input_handler emit events].
  cbn [with_game_state with_self combo_objects combo_manager.game_state
       combo_manager.self combo_manager.input_handler game_state
       combo_manager input_handler].
  rewrite update_combat_state_sets. split_and!; try done.
  unfold spec.abort_keys. rewrite fmap_app. by eexists.
Qed.

Lemma emergency_exit_effects o loop_time now done world :
  in_combat (self (_emergency_exit o loop_time now done world)) = false
  ∧ current_target (self (_emergency_exit o loop_time now done world)) = None
  ∧ ∃ rest, events (input_handler
                      (_emergency_exit o loop_time now done world))
            = events (input_handler o)
              ++ (KeyUp <$> combo_manager.mod_keys) ++ rest.
Proof.
  destruct (exit_combat_effects o loop_time) as (H1 & H2 & _ & _ & rest & H3).
  unfold _emergency_exit.
  destruct (combo_manager.get_combo _ _ _) as [escape|];
    [destruct (truthy escape)|]; cbn [with_combo_objects self input_handler];
    try (split_and!; [done|done|by exists rest]).
  split_and!; [done|done|].
  destruct (execute_combo_extends
              (combo_objects (_exit_combat o loop_time)) escape now done
              world) as [more Hmore].
  rewrite Hmore. cbn [combo_objects combo_manager.input_handler].
  rewrite H3. exists (rest ++ more). by rewrite <- !app_assoc.
Qed.

(** C7, as the code has it.  The threat check reports a threat exactly
    when it is due (at least 1.0 s after the last check that was carried
    out), the world state lists at least one nearby player, hostile or
    not, and PvP is disabled.  A check that is not due reports no threat
    and changes nothing; a check that is due records its time; so within a
    second of a check that was carried out no threat is reported, whoever
    is nearby.  When the gate of the cycle sees a threat it ends the cycle
    in the emergency exit: the target is cleared, the combat state is set
    to None and the modifier keys are released before the escape combo is
    looked for. *)
Theorem C7_pvp_gate :
  (∀ o t,
     snd (_check_pvp_threat o t) = true
     ↔ 1 <= t - last_pvp_check (self o)
       ∧ nearby_players (game_state o) ≠ []
       ∧ pvp_enabled (self o) = false)
  ∧ (∀ o t, t - last_pvp_check (self o) < 1 →
            _check_pvp_threat o t = (o, false))
  ∧ (∀ o t, 1 <= t - last_pvp_check (self o) →
            last_pvp_check (self (fst (_check_pvp_threat o t))) = t)
  ∧ (∀ o t t' g,
       1 <= t - last_pvp_check (self o) → t' - t < 1 →
       snd (_check_pvp_threat
              (with_game_state (λ _, g) (fst (_check_pvp_threat o t))) t')
       = false)
  ∧ (∀ o current_time loop_time now done world,
       snd (pvp_gate o current_time loop_time now done world)
       = snd (_check_pvp_threat o current_time)
       ∧ (snd (pvp_gate o current_time loop_time now done world) = true →
          in_combat
            (self (fst (pvp_gate o current_time loop_time now done world)))
          = false
          ∧ current_target
              (self (fst (pvp_gate o current_time loop_time now done world)))
            = None
          ∧ combat_state
              (game_state
                 (_exit_combat (fst (_check_pvp_threat o current_time))
                    loop_time))
            = NONE
          ∧ ∃ rest,
              events
                (input_handler
                   (fst (pvp_gate o current_time loop_time now done world)))
              = events (input_handler o)
                ++ (KeyUp <$> combo_manager.mod_keys) ++ rest)).
Proof.
  assert (Hskip : ∀ o t, t - last_pvp_check (self o) < 1 →
                         _check_pvp_threat o t = (o, false)).
  { intros o t Ht. unfold _check_pvp_threat.
    by rewrite (proj2 (py_ltb_lt _ _) Ht). }
  assert (Hdue : ∀ o t, 1 <= t - last_pvp_check (self o) →
                        _check_pvp_threat o t
                        = (with_self (set_last_pvp_check t) o,
                           Nat.ltb 0 (length (nearby_players (game_state o)))
                           && negb (pvp_enabled (self o)))).
  { intros o t Ht. unfold _check_pvp_threat.
    by rewrite (proj2 (py_ltb_ge _ _) Ht). }
  split_and!.
  - intros o t. destruct (Qlt_le_dec (t - last_pvp_check (self o)) 1) as [Ht|Ht].
    + rewrite Hskip by done. cbn. split; [done|]. intros [? _]. lra.
    + rewrite Hdue by done. cbn [snd].
      rewrite andb_true_iff, negb_true_iff, Nat.ltb_lt.
      destruct (nearby_players (game_state o)); cbn; split.
      * intros [? _]. lia.
      * by intros (_ & ? & _).
      * intros [_ ?]. done.
      * intros (_ & _ & ?). split; [lia|done].
  - exact Hskip.
  - intros o t Ht. by rewrite Hdue.
  - intros o t t' g Ht Ht'. rewrite (Hdue o t Ht). cbn [fst].
    by rewrite Hskip.
  - intros o current_time loop_time now done world. unfold pvp_gate.
    destruct (_check_pvp_threat o current_time) as [o1 threat] eqn:Hcheck.
    destruct threat; cbn [fst snd]; [|done]. split; [done|]. intros _.
    assert (Hih : input_handler o1 = input_handler o).
    { unfold _check_pvp_threat in Hcheck.
      destruct (ltb _ _); by injection Hcheck as <- _. }
    unfold _handle_pvp_threat.
    destruct (emergency_exit_effects o1 loop_time now done world)
      as (H1 & H2 & rest & H3).
    destruct (exit_combat_effects o1 loop_time) as (_ & _ & H4 & _).
    split_and!; [done|done|done|]. exists rest. by rewrite H3, Hih.
Qed.

(** The theorem at a raider next to the character, five seconds after
    the last check: the gate ends the cycle in the emergency exit. *)
Lemma C7_pvp_gate_witness :
  snd (pvp_gate
         (samples.fighting (samples.wolf_with 100 (mkPosition 1 0 0 0)) []
            [samples.raider])
         5 (11 # 2) 5 6 samples.quiet) = true
  ∧ current_target
      (self (fst (pvp_gate
                    (samples.fighting (samples.wolf_with 100 (mkPosition 1 0 0 0))
                       [] [samples.raider])
                    5 (11 # 2) 5 6 samples.quiet))) = None.
Proof.
  destruct C7_pvp_gate as (Hiff & _ & _ & _ & Hgate).
  destruct (Hgate
              (samples.fighting (samples.wolf_with 100 (mkPosition 1 0 0 0)) []
                 [samples.raider])
              5 (11 # 2) 5 6 samples.quiet) as [Heq Heffects].
  assert (Hfire : snd (pvp_gate
                         (samples.fighting
                            (samples.wolf_with 100 (mkPosition 1 0 0 0)) []
                            [samples.raider])
                         5 (11 # 2) 5 6 samples.quiet) = true).
  { rewrite Heq. apply Hiff. split_and!; [|done|reflexivity].
    vm_compute. discriminate. }
  split; [exact Hfire|]. by destruct (Heffects Hfire) as (_ & ? & _).
Defined.

(** C7 as stated fails both ways: with PvP disabled, a bystander who is
    not hostile sets off the emergency exit; and a raider does not, half a
    second after the last check. *)
Lemma C7_counterexample :
  is_hostile samples.bystander = Some false
  ∧ snd (pvp_gate
           (samples.fighting (samples.wolf_with 100 (mkPosition 1 0 0 0)) []
              [samples.bystander])
           5 (11 # 2) 5 6 samples.quiet) = true
  ∧ is_hostile samples.raider = Some true
  ∧ snd (pvp_gate
           (samples.fighting (samples.wolf_with 100 (mkPosition 1 0 0 0)) []
              [samples.raider])
           (1 # 2) 1 5 6 samples.quiet) = false.
Proof. split_and!; vm_compute; reflexivity. Qed.

End combat.

(** * Further properties of the code *)

(** ** World state: maintenance sweeps *)

Section sweeps.
Import py game_state game_state_rest.
Local Open Scope Q_scope.

Lemma option_ext {A} (a b : option A) :
  (∀ v, a = Some v ↔ b = Some v) → a = b.
Proof.
  intros H. destruct a as [x|].
  - symmetry. by apply H.
  - destruct b as [y|]; [|done]. by apply H.
Qed.

(** What a sweep keeps: the entries whose time [f] lies after [now]. *)
Lemma lookup_sweep {V} (f : V → Q) (m : gmap string V) now k v :
  foldr delete m
    ((filter (λ kv, geb now (f kv.2) = true) (map_to_list m)).*1) !! k
  = Some v
  ↔ m !! k = Some v ∧ now < f v.
Proof.
  rewrite lookup_foldr_delete_Some, list_elem_of_fmap. split.
  - intros [Hnot Hk]. split; [done|].
    destruct (Qlt_le_dec now (f v)) as [|Hle]; [done|].
    exfalso. apply Hnot. exists (k, v). split; [done|].
    apply list_elem_of_filter. split.
    + cbn. by apply py_geb_ge.
    + by apply elem_of_map_to_list.
  - intros [Hk Hlt]. split; [|done].
    intros ([k' v'] & -> & Hin). apply list_elem_of_filter in Hin as [He Hin].
    apply elem_of_map_to_list in Hin. cbn in *.
    apply py_geb_ge in He. simplify_eq. lra.
Qed.

Lemma sweep_sweep {V} (f : V → Q) (m : gmap string V) t1 t2 :
  t1 <= t2 →
  foldr delete
    (foldr delete m
       ((filter (λ kv, geb t1 (f kv.2) = true) (map_to_list m)).*1))
    ((filter (λ kv, geb t2 (f kv.2) = true)
        (map_to_list
           (foldr delete m
              ((filter (λ kv, geb t1 (f kv.2) = true) (map_to_list m)).*1)))).*1)
  = foldr delete m
      ((filter (λ kv, geb t2 (f kv.2) = true) (map_to_list m)).*1).
Proof.
  intros Ht. apply map_eq. intros k. apply option_ext. intros v.
  rewrite !lookup_sweep. split.
  - by intros [[? ?] ?].
  - intros [? ?]. split_and!; [done|lra|done].
Qed.

(** X1.  The sweep of the skill cooldowns keeps exactly the entries that expire
    after the sweep time; a reader at the sweep time or later gets the same
    answer from [can_use_skill] with or without the sweep; and a sweep
    followed by a later one is the later one alone. *)
Theorem X_cooldown_sweep :
  (∀ g now id cd,
     skill_cooldowns (update_skill_cooldowns g now) !! id = Some cd
     ↔ skill_cooldowns g !! id = Some cd ∧ now < remaining_time cd)
  ∧ (∀ g now t id,
       now <= t →
       can_use_skill (update_skill_cooldowns g now) id t = can_use_skill g id t)
  ∧ (∀ g t1 t2,
       t1 <= t2 →
       update_skill_cooldowns (update_skill_cooldowns g t1) t2
       = update_skill_cooldowns g t2).
Proof.
  split_and!.
  - intros g now id cd. apply (lookup_sweep remaining_time).
  - intros g now t id Ht. unfold can_use_skill.
    destruct (skill_cooldowns (update_skill_cooldowns g now) !! id)
      as [cd|] eqn:Hafter.
    + by destruct (proj1 (lookup_sweep remaining_time (skill_cooldowns g)
                            now id cd) Hafter) as [-> _].
    + destruct (skill_cooldowns g !! id) as [cd|] eqn:Hbefore; [|done].
      symmetry. apply py_geb_ge.
      destruct (Qlt_le_dec now (remaining_time cd)) as [Hlt|Hle]; [|lra].
      pose proof (proj2 (lookup_sweep remaining_time (skill_cooldowns g)
                           now id cd) (conj Hbefore Hlt)) as Hcd.
      change (foldr delete _ _)
        with (skill_cooldowns (update_skill_cooldowns g now)) in Hcd.
      congruence.
  - intros g t1 t2 Ht. unfold update_skill_cooldowns.
    cbn [skill_cooldowns set_skill_cooldowns].
    unfold expired_skills.
    rewrite (sweep_sweep remaining_time) by done. reflexivity.
Qed.

(** The theorem on a cooldown that ends at 5: a sweep at 2 keeps it, a
    sweep at 5 removes it, and the answer at 7 is the same either way. *)
Lemma X_cooldown_sweep_witness :
  skill_cooldowns
    (update_skill_cooldowns (start_skill_cooldown (init 0) "slash" 5 0) 2)
    !! "slash" = Some (mkSkillCooldown "slash" (0 + 5) 5)
  ∧ can_use_skill
      (update_skill_cooldowns (start_skill_cooldown (init 0) "slash" 5 0) 5)
      "slash" 7
    = can_use_skill (start_skill_cooldown (init 0) "slash" 5 0) "slash" 7.
Proof.
  destruct X_cooldown_sweep as (Hkeep & Hread & _). split.
  - apply Hkeep. split; [reflexivity|]. vm_compute. reflexivity.
  - apply Hread. vm_compute. discriminate.
Defined.

(** X2.  The sweep of the buffs keeps exactly the buffs that end after the sweep
    time and touches nothing but the buff table; a sweep followed by a later
    one is the later one alone; the two sweeps of the world state commute. *)
Theorem X_buff_sweep :
  (∀ g now id end_time,
     active_buffs (update_buffs g now) !! id = Some end_time
     ↔ active_buffs g !! id = Some end_time ∧ now < end_time)
  ∧ (∀ g now, set_active_buffs (active_buffs g) (update_buffs g now) = g)
  ∧ (∀ g t1 t2,
       t1 <= t2 → update_buffs (update_buffs g t1) t2 = update_buffs g t2)
  ∧ (∀ g t1 t2,
       update_buffs (update_skill_cooldowns g t1) t2
       = update_skill_cooldowns (update_buffs g t2) t1).
Proof.
  split_and!.
  - intros g now id end_time. apply (lookup_sweep (λ e : Q, e)).
  - intros g now. by destruct g.
  - intros g t1 t2 Ht. unfold update_buffs.
    cbn [active_buffs set_active_buffs]. unfold expired_buffs.
    rewrite (sweep_sweep (λ e : Q, e)) by done. reflexivity.
  - reflexivity.
Qed.

(** The theorem on a buff that ends at 5: a sweep at 5 removes it, a sweep
    at 2 followed by one at 5 does the same. *)
Lemma X_buff_sweep_witness :
  update_buffs
    (update_buffs (set_active_buffs {["rage" := 5]} (init 0)) 2) 5
  = update_buffs (set_active_buffs {["rage" := 5]} (init 0)) 5.
Proof.
  apply (proj1 (proj2 (proj2 X_buff_sweep))). vm_compute. discriminate.
Defined.

End sweeps.

(** ** World state: position and mob updates *)

Section world_updates.
Import py game_state.
Local Open Scope Q_scope.

(** X3.  [update_position] raises exactly when the clock has not advanced since
    the last update (its local [distance] is then unbound), and it raises
    after the new position and the timestamp were stored: the update is
    committed although the call fails, and the character state is left as
    it was. *)
Theorem X_update_position_raises (g : GameState) (p : Position) (now : Q) :
  (snd (update_position g p now) = Raised UnboundLocalError
   ↔ now <= last_update g)
  ∧ (snd (update_position g p now) = Returned ↔ last_update g < now)
  ∧ position (fst (update_position g p now)) = p
  ∧ last_update (fst (update_position g p now)) = now
  ∧ (now <= last_update g →
     character_state (fst (update_position g p now)) = character_state g).
Proof.
  unfold update_position.
  destruct (gtb (now - last_update g) 0) eqn:Ht.
  - apply py_gtb_gt in Ht.
    assert (snd (if dist_gtb (distance_to (position g) p) (1 # 10)
                 then (set_character_state MOVING
                         (set_last_update now (set_position p g)), Returned)
                 else if decide (character_state
                                   (set_last_update now (set_position p g))
                                 = MOVING)
                      then (set_character_state IDLE
                              (set_last_update now (set_position p g)),
                            Returned)
                      else (set_last_update now (set_position p g), Returned))
            = Returned) as Hret by (by repeat case_match).
    rewrite Hret. split_and!.
    + split; [done|]. intros ?. lra.
    + split; [|done]. intros _. lra.
    + by repeat case_match.
    + by repeat case_match.
    + intros ?. lra.
  - apply py_gtb_le in Ht. cbn. split_and!; try done.
    + split; [|done]. intros _. lra.
    + split; [done|]. intros ?. lra.
Qed.

(** The theorem on a clock that stands still: the call raises and the
    position is the new one all the same. *)
Lemma X_update_position_raises_witness :
  snd (update_position (init 3) (mkPosition 3 4 0 0) 3)
  = Raised UnboundLocalError
  ∧ position (fst (update_position (init 3) (mkPosition 3 4 0 0) 3))
    = mkPosition 3 4 0 0.
Proof.
  pose proof (X_update_position_raises (init 3) (mkPosition 3 4 0 0) 3)
    as (Hraise & _ & Hpos & _).
  split; [|exact Hpos]. apply Hraise. vm_compute. discriminate.
Defined.

(** X4.  When the clock has advanced, [update_position] makes the character
    Moving after a move of more than 0.1 units, whatever it was doing
    (stunned or dead included); after a shorter move it turns Moving into
    Idle and leaves every other character state alone.  Position,
    timestamp and character state are all it ever writes. *)
Theorem X_update_position_state (g : GameState) (p : Position) (now : Q) :
  (last_update g < now →
   (spec.dist_gt (distance_to (position g) p) (1 # 10) →
    character_state (fst (update_position g p now)) = MOVING)
   ∧ (spec.dist_le (distance_to (position g) p) (1 # 10) →
      character_state (fst (update_position g p now))
      = if decide (character_state g = MOVING) then IDLE
        else character_state g))
  ∧ set_character_state (character_state g)
      (set_last_update (last_update g)
         (set_position (position g) (fst (update_position g p now))))
    = g.
Proof.
  unfold update_position. split.
  - intros Ht. rewrite (proj2 (py_gtb_gt _ _)) by lra. split.
    + intros Hd. by rewrite (proj2 (dist_gtb_gt _ _) Hd).
    + intros Hd. rewrite (proj2 (dist_gtb_le _ _) Hd).
      cbn [character_state set_last_update set_position].
      by case_decide.
  - destruct g. by repeat case_match.
Qed.

(** The theorem on a dead character that is moved by 5 units: it is Moving
    afterwards. *)
Lemma X_update_position_state_witness :
  character_state
    (fst (update_position (set_character_state DEAD (init 0))
            (mkPosition 3 4 0 0) 1)) = MOVING.
Proof.
  apply (proj1 (X_update_position_state (set_character_state DEAD (init 0))
                  (mkPosition 3 4 0 0) 1)).
  - vm_compute. reflexivity.
  - right. vm_compute. reflexivity.
Defined.

Lemma find_none_ids (mobs : list MobDict) (id : Z) :
  List.find (λ mob, Z.eqb (mob_dict_id mob) id) mobs = None
  ↔ ∀ mob, mob ∈ mobs → mob_dict_id mob ≠ id.
Proof.
  split.
  - intros H mob Hin Hid. apply list_elem_of_In in Hin.
    apply (find_none _ _ H) in Hin. cbn in Hin. lia.
  - intros H. induction mobs as [|mob mobs IH]; [done|]. cbn.
    destruct (Z.eqb_spec (mob_dict_id mob) id) as [Heq|_].
    + exfalso. apply (H mob); [left|done].
    + apply IH. intros m Hm. apply H. by right.
Qed.

(** X5.  [update_mobs] always replaces the projection.  The target follows its
    id into the new list (the first entry with that id) and is cleared when
    the id is gone.  The call never changes the combat state: when the
    target is gone while attacking, it waits for the state lock that it
    holds itself and never returns, and in every other case it returns
    without the transition. *)
Theorem X_update_mobs (g : GameState) (mobs : list MobDict) :
  detected_mobs (fst (update_mobs g mobs)) = mobs
  ∧ combat_state (fst (update_mobs g mobs)) = combat_state g
  ∧ character_state (fst (update_mobs g mobs)) = character_state g
  ∧ targeted_mob (fst (update_mobs g mobs))
    = (target ← targeted_mob g;
       List.find (λ mob, Z.eqb (mob_dict_id mob) (mob_dict_id target)) mobs)
  ∧ (snd (update_mobs g mobs) = Blocked
     ↔ ∃ target,
         targeted_mob g = Some target
         ∧ (∀ mob, mob ∈ mobs → mob_dict_id mob ≠ mob_dict_id target)
         ∧ combat_state g = ATTACKING)
  ∧ (snd (update_mobs g mobs) = Blocked ∨ snd (update_mobs g mobs) = Returned).
Proof.
  unfold update_mobs. cbn [targeted_mob set_detected_mobs].
  destruct (targeted_mob g) as [target|] eqn:Htarget; cbn [mbind option_bind].
  - destruct (List.find _ mobs) as [mob|] eqn:Hfind; cbn.
    + split_and!; try done; [|by right]. split; [done|].
      intros (t & [= <-] & Hgone & _).
      pose proof (proj2 (find_none_ids _ _) Hgone). congruence.
    + pose proof (proj1 (find_none_ids _ _) Hfind) as Hgone.
      case_decide as Hc; cbn in *; (split_and!; try done); try by eauto.
      * split; [|done]. intros _. by exists target.
      * split; [done|]. by intros (t & _ & _ & ?).
  - cbn. split_and!; try done; [|by right]. split; [done|].
    by intros (t & ? & _).
Qed.

Lemma X_update_mobs_witness :
  snd (update_mobs
         (set_targeted_mob (Some samples_rest.wolf_dict)
            (set_combat_state ATTACKING (game_state.init 0)))
         [])
  = Blocked.
Proof.
  apply (proj2 (proj1 (proj2 (proj2 (proj2 (proj2
           (X_update_mobs
              (set_targeted_mob (Some samples_rest.wolf_dict)
                 (set_combat_state ATTACKING (game_state.init 0)))
              []))))))).
  exists samples_rest.wolf_dict. split_and!; [reflexivity| |reflexivity].
  intros mob Hin. by apply elem_of_nil in Hin.
Defined.

End world_updates.

(** ** Combos: selection *)

Section combo_selection.
Import py game_state input_handler combo_manager.
Local Open Scope Q_scope.

Lemma score_bounds o combo criteria now :
  0 <= _calculate_combo_score o combo criteria now
  ∧ _calculate_combo_score o combo criteria now <= 9 # 2
  ∧ (_check_cooldown (self o) combo now = true →
     1 <= _calculate_combo_score o combo criteria now).
Proof.
  unfold _calculate_combo_score.
  destruct (bool_decide _), (leb _ _), (_check_cooldown _ _ _), (gtb _ _);
    (split_and!; [lra|lra|intros ?; try discriminate; lra]).
Qed.

Lemma check_conditions_cooldown o combo now :
  _check_combo_conditions o combo now = true →
  _check_cooldown (self o) combo now = true.
Proof.
  unfold _check_combo_conditions.
  by destruct (_check_cooldown (self o) combo now).
Qed.

Lemma selection_step_state o criteria now pre acc kv :
  spec_rest.selection_state o criteria now pre acc →
  spec_rest.selection_state o criteria now (pre ++ [kv])
    (spec_rest.selection_step o criteria now acc kv).
Proof.
  destruct kv as [name combo]. unfold spec_rest.selection_step.
  pose proof (score_bounds o combo criteria now) as (Hlo & _ & _).
  intros [(Hnone & Hscore & Hpre) | (p1 & n & c & p2 & -> & -> & Hc & H1 & H2)].
  - destruct (_check_combo_conditions o combo now) eqn:Hcheck; cbn [negb].
    + rewrite Hscore, (proj2 (py_gtb_gt _ _)) by lra.
      right. exists pre, name, combo, []. split_and!; try done.
      * intros kv Hkv Hok. rewrite Hpre in Hok by done. done.
      * intros kv Hkv. by apply elem_of_nil in Hkv.
    + left. split_and!; try done. intros kv Hkv.
      apply elem_of_app in Hkv as [?|Hkv]; [by apply Hpre|].
      apply list_elem_of_singleton in Hkv. by subst kv.
  - destruct (_check_combo_conditions o combo now) eqn:Hcheck; cbn [negb snd].
    + destruct (gtb _ _) eqn:Hgt.
      * apply py_gtb_gt in Hgt. right.
        exists (p1 ++ (n, c) :: p2), name, combo, [].
        split_and!; try done.
        -- intros kv Hkv Hok. apply elem_of_app in Hkv as [Hkv|Hkv].
           ++ specialize (H1 kv Hkv Hok). lra.
           ++ apply elem_of_cons in Hkv as [->|Hkv]; [done|].
              specialize (H2 kv Hkv Hok). lra.
        -- intros kv Hkv. by apply elem_of_nil in Hkv.
      * apply py_gtb_le in Hgt. right. exists p1, n, c, (p2 ++ [(name, combo)]).
        split_and!; try done.
        -- by rewrite <- app_assoc.
        -- intros kv Hkv Hok. apply elem_of_app in Hkv as [Hkv|Hkv];
             [by apply H2|].
           apply list_elem_of_singleton in Hkv. by subst kv.
    + right. exists p1, n, c, (p2 ++ [(name, combo)]).
      split_and!; try done.
      * by rewrite <- app_assoc.
      * intros kv Hkv Hok. apply elem_of_app in Hkv as [Hkv|Hkv];
          [by apply H2|].
        apply list_elem_of_singleton in Hkv. subst kv. cbn in Hok. congruence.
Qed.

Lemma selection_fold_state o criteria now l pre acc :
  spec_rest.selection_state o criteria now pre acc →
  spec_rest.selection_state o criteria now (pre ++ l)
    (foldl (spec_rest.selection_step o criteria now) acc l).
Proof.
  revert pre acc. induction l as [|kv l IH]; intros pre acc H; cbn.
  - by rewrite app_nil_r.
  - rewrite (cons_middle kv pre l), app_assoc.
    by apply IH, selection_step_state.
Qed.

Lemma get_combo_state o criteria now :
  spec_rest.selection_state o criteria now (combos (self o))
    (foldl (spec_rest.selection_step o criteria now) (None, -1)
       (combos (self o))).
Proof.
  apply (selection_fold_state o criteria now (combos (self o)) []).
  left. split_and!; try done. intros kv Hkv. by apply elem_of_nil in Hkv.
Qed.

(** X6.  [get_combo] returns a combo exactly when some loaded combo passes the
    conditions check.  The combo it returns passes the check, no eligible
    combo scores higher, and every eligible combo loaded before it scores
    strictly lower: ties go to the combo loaded first.  A score lies
    between 0 and 4.5, and an eligible combo scores at least 1. *)
Theorem X_get_combo (o : Objects) (criteria : Criteria) (now : Q) :
  (get_combo o criteria now = None
   ↔ ∀ kv, kv ∈ combos (self o) →
           _check_combo_conditions o (snd kv) now = false)
  ∧ (∀ n, get_combo o criteria now = Some n →
          ∃ p1 combo p2,
            combos (self o) = p1 ++ (n, combo) :: p2
            ∧ _check_combo_conditions o combo now = true
            ∧ (∀ kv, kv ∈ p1 →
                     _check_combo_conditions o (snd kv) now = true →
                     _calculate_combo_score o (snd kv) criteria now
                     < _calculate_combo_score o combo criteria now)
            ∧ (∀ kv, kv ∈ p2 →
                     _check_combo_conditions o (snd kv) now = true →
                     _calculate_combo_score o (snd kv) criteria now
                     <= _calculate_combo_score o combo criteria now))
  ∧ (∀ combo,
       0 <= _calculate_combo_score o combo criteria now <= 9 # 2
       ∧ (_check_combo_conditions o combo now = true →
          1 <= _calculate_combo_score o combo criteria now)).
Proof.
  pose proof (get_combo_state o criteria now) as Hstate.
  assert (Hget : get_combo o criteria now
                 = fst (foldl (spec_rest.selection_step o criteria now)
                          (None, -1)
                          (combos (self o)))) by reflexivity.
  rewrite Hget. split_and!.
  - destruct Hstate as [(Hnone & _ & Hpre)
                       | (p1 & n & c & p2 & Heq & Hacc & Hc & _)].
    + by rewrite Hnone.
    + rewrite Hacc. cbn [fst]. split; [done|]. intros Hall.
      specialize (Hall (n, c)). rewrite Heq in Hall. cbn in Hall.
      rewrite Hall in Hc; [done|]. apply elem_of_app. right. by left.
  - intros n Hn.
    destruct Hstate as [(Hnone & _) | (p1 & n' & c & p2 & Heq & Hacc & Hrest)].
    + congruence.
    + rewrite Hacc in Hn. cbn in Hn. injection Hn as ->. by exists p1, c, p2.
  - intros combo.
    pose proof (score_bounds o combo criteria now) as (Hlo & Hhi & H1).
    split; [done|]. intros Hc. by apply H1, check_conditions_cooldown.
Qed.

(** The theorem on a bot with a close and a long combo, asked for close
    range: the close combo is chosen, and it passes the check. *)
Lemma X_get_combo_witness :
  get_combo samples_rest.two_combos samples_rest.close_range 100
  = Some "slash"
  ∧ ∃ p1 combo p2,
      combos (self samples_rest.two_combos) = p1 ++ ("slash", combo) :: p2
      ∧ _check_combo_conditions samples_rest.two_combos combo 100 = true.
Proof.
  split; [reflexivity|].
  destruct (proj1 (proj2 (X_get_combo samples_rest.two_combos
                            samples_rest.close_range 100))
              "slash" eq_refl) as (p1 & combo & p2 & Heq & Hc & _).
  by exists p1, combo, p2.
Defined.

Lemma combos_get_decomposed (cs p1 p2 : list (string * Combo)) n combo :
  NoDup cs.*1 → cs = p1 ++ (n, combo) :: p2 → combos_get cs n = Some combo.
Proof.
  intros Hnd ->. unfold combos_get.
  rewrite fmap_app, fmap_cons in Hnd. apply NoDup_app in Hnd as (_ & Hnot & _).
  induction p1 as [|[k c] p1 IH]; cbn.
  - by rewrite String.eqb_refl.
  - destruct (String.eqb_spec k n) as [->|_].
    + exfalso. apply (Hnot n); [left|left].
    + apply IH. intros x Hx. apply Hnot. by right.
Qed.

Lemma run_actions_passes world acts i o :
  (∀ j, (j < length acts)%nat →
        _check_action_conditions
          (spec.world_after world i j (game_state o)) = true) →
  run_actions world acts i o
  = (mkObjects (self o)
       (spec.world_after world i (length acts) (game_state o))
       (emit (acts ≫= spec.action_events) (input_handler o)),
     true).
Proof.
  revert i o. induction acts as [|a acts IH]; intros i o Hpass.
  - cbn. rewrite emit_nil. by destruct o.
  - pose proof (Hpass 0%nat ltac:(cbn; lia)) as Hfirst. cbn in Hfirst.
    cbn [run_actions]. rewrite Hfirst. cbn [negb]. rewrite IH.
    + cbn. by rewrite apply_action_emit, emit_emit.
    + intros j Hj. apply (Hpass (S j)). cbn. lia.
Qed.

(** X7.  Selection and execution fit together: in a table of combos with
    distinct names, the combo that [get_combo] returns is accepted by
    [execute_combo] at the same time, and the execution succeeds unless a
    cancellation check fails on the way. *)
Theorem X_selected_combo_is_accepted (o : Objects) (criteria : Criteria)
  (now done : Q) (world : nat → GameState → GameState) (n : string) :
  NoDup (combos (self o)).*1 →
  get_combo o criteria now = Some n →
  ∃ combo,
    spec.accepted o n combo now
    ∧ ((∀ j, (j < length (actions combo))%nat →
             _check_action_conditions
               (spec.world_after world 0 j (game_state o)) = true) →
       snd (execute_combo o n now done world) = true).
Proof.
  intros Hnd Hget.
  pose proof (get_combo_state o criteria now) as Hstate.
  assert (Hfold : fst (foldl (spec_rest.selection_step o criteria now)
                         (None, -1) (combos (self o))) = Some n) by exact Hget.
  destruct Hstate as [(Hnone & _) | (p1 & n' & c & p2 & Heq & Hacc & Hc & _)];
    [congruence|].
  rewrite Hacc in Hfold. cbn in Hfold. injection Hfold as ->.
  exists c.
  assert (Hacc' : spec.accepted o n c now).
  { split; [|done]. by apply (combos_get_decomposed _ p1 p2). }
  split; [done|]. intros Hpass.
  rewrite (execute_combo_accepted _ _ _ _ _ _ Hacc').
  by rewrite run_actions_passes.
Qed.

(** The theorem on the bot with two combos and a healthy character. *)
Lemma X_selected_combo_is_accepted_witness :
  ∃ combo,
    spec.accepted samples_rest.two_combos "slash" combo 100
    ∧ snd (execute_combo samples_rest.two_combos "slash" 100 102 samples.quiet)
      = true.
Proof.
  destruct (X_selected_combo_is_accepted samples_rest.two_combos
              samples_rest.close_range 100 102 samples.quiet "slash")
    as (combo & Hacc & Hrun).
  - cbn. repeat constructor; set_solver.
  - reflexivity.
  - exists combo. split; [done|]. reflexivity.
Defined.

End combo_selection.

(** ** Combos: what a call leaves behind *)

Section combo_calls.
Import py game_state input_handler combo_manager combo_manager_rest.
Local Open Scope Q_scope.

(** The manager after an accepted call: the actions complete, or the
    combo is cancelled. *)
Lemma execute_combo_self_accepted o n combo now done world :
  spec.accepted o n combo now →
  self (fst (execute_combo o n now done world))
  = set_current_combo None (self (spec.started o n now))
  ∨ self (fst (execute_combo o n now done world))
    = set_current_combo None
        (set_total_skills
           (total_skills (self (spec.started o n now)) + 1)
           (set_successful_skills
              (successful_skills (self (spec.started o n now)) + 1)
              (self (spec.started o n now)))).
Proof.
  intros Hacc.
  rewrite (execute_combo_accepted o n combo now done world) by done.
  pose proof (run_actions_self world (actions combo) 0
                (spec.started o n now)) as Hself.
  destruct (run_actions _ _ _ _) as [o' [|]]; cbn in *; rewrite Hself;
    [by right|by left].
Qed.

Lemma execute_combo_refused o n now done world :
  (∀ combo, ¬ spec.accepted o n combo now) →
  execute_combo o n now done world
  = (with_self (set_current_combo None) o, false).
Proof.
  intros Hnone. unfold execute_combo.
  destruct (combos_get (combos (self o)) n) as [combo|] eqn:Hget; [|done].
  destruct (_check_combo_conditions o combo now) eqn:Hcheck; [|done].
  by destruct (Hnone combo).
Qed.

Lemma accepted_dec o n now :
  (∃ combo, spec.accepted o n combo now)
  ∨ (∀ combo, ¬ spec.accepted o n combo now).
Proof.
  unfold spec.accepted.
  destruct (combos_get (combos (self o)) n) as [combo|] eqn:Hget.
  - destruct (_check_combo_conditions o combo now) eqn:Hcheck.
    + left. by exists combo.
    + right. intros c [[= <-] Hc]. congruence.
  - right. by intros c [? _].
Qed.

Lemma last_use_snoc history n t :
  last_use (history ++ [(n, t)]) n = t.
Proof.
  unfold last_use. rewrite rev_unit. cbn. by rewrite String.eqb_refl.
Qed.

Lemma started_last_use o n now :
  (0 < max_history (self o))%Z →
  last_use (combo_history (self (spec.started o n now))) n = now.
Proof.
  intros Hmax. cbn. destruct (combo_history (self o)) as [|e h]; cbn [app].
  - case_match eqn:Hlt; [|cbn; by rewrite String.eqb_refl].
    apply Z.ltb_lt in Hlt. cbn in Hlt. lia.
  - case_match; cbn [tail].
    + apply last_use_snoc.
    + apply (last_use_snoc (e :: h)).
Qed.

(** X8.  The cooldown of a combo runs from the moment a call for it is
    accepted, whether that call completes or is cancelled.  For a combo
    stored under its own name and a history of at least one entry: a later
    call before the cooldown is over is refused outright, leaving the
    manager, the world state and the keys as they are; from the end of the
    cooldown on the cooldown check passes. *)
Theorem X_cooldown_after_call (o : Objects) (n : string) (combo : Combo)
  (now done t done' : Q) (world world' : nat → GameState → GameState)
  (between : GameState → GameState) :
  spec.accepted o n combo now →
  name combo = n →
  (0 < max_history (self o))%Z →
  (t - now < cooldown combo →
   execute_combo
     (with_game_state between (fst (execute_combo o n now done world)))
     n t done' world'
   = (with_game_state between (fst (execute_combo o n now done world)),
      false))
  ∧ (cooldown combo <= t - now →
     _check_cooldown
       (self (with_game_state between
                (fst (execute_combo o n now done world))))
       combo t = true).
Proof.
  intros Hacc Hname Hmax.
  pose proof (started_last_use o n now Hmax) as Hlast.
  pose proof (execute_combo_self_accepted o n combo now done world Hacc)
    as Hself.
  set (o1 := with_game_state between (fst (execute_combo o n now done world))).
  assert (Hhist : last_use (combo_history (self o1)) (name combo) = now).
  { rewrite Hname. subst o1. cbn [with_game_state self].
    by destruct Hself as [-> | ->]. }
  assert (Hcombos : combos_get (combos (self o1)) n = Some combo).
  { destruct Hacc as [Hget _]. subst o1. cbn [with_game_state self].
    by destruct Hself as [-> | ->]. }
  assert (Hcurrent : with_self (set_current_combo None) o1 = o1).
  { subst o1. destruct (fst (execute_combo o n now done world)) as [c g i].
    cbn [self] in Hself. by destruct Hself as [-> | ->]. }
  split.
  - intros Ht. unfold execute_combo. rewrite Hcombos.
    unfold _check_combo_conditions, _check_cooldown. rewrite Hhist.
    unfold geb. rewrite (proj2 (py_leb_gt _ _)) by done. cbn [negb].
    by rewrite Hcurrent.
  - intros Ht. unfold _check_cooldown. rewrite Hhist. by apply py_geb_ge.
Qed.

Lemma X_cooldown_after_call_witness :
  execute_combo
    (with_game_state id
       (fst (execute_combo samples_rest.two_combos "slash" 100 102
               samples.quiet)))
    "slash" 101 103 samples.quiet
  = (with_game_state id
       (fst (execute_combo samples_rest.two_combos "slash" 100 102
               samples.quiet)),
     false).
Proof.
  refine (proj1 (X_cooldown_after_call samples_rest.two_combos "slash"
                   samples.slash 100 102 101 103 samples.quiet samples.quiet
                   id _ _ _) _).
  - split; reflexivity.
  - reflexivity.
  - reflexivity.
  - reflexivity.
Defined.

(** What a call never changes in the manager, and what it always leaves. *)
Lemma execute_combo_frame o n now done world :
  max_history (self (fst (execute_combo o n now done world)))
  = max_history (self o)
  ∧ combos (self (fst (execute_combo o n now done world))) = combos (self o)
  ∧ lua_eval (self (fst (execute_combo o n now done world)))
    = lua_eval (self o)
  ∧ current_combo (self (fst (execute_combo o n now done world))) = None.
Proof.
  destruct (accepted_dec o n now) as [[combo Hacc]|Hno].
  - by destruct (execute_combo_self_accepted o n combo now done world Hacc)
      as [-> | ->].
  - by rewrite execute_combo_refused.
Qed.

Lemma execute_combo_history_length o n now done world :
  (Z.of_nat (length (combo_history
                       (self (fst (execute_combo o n now done world)))))
   <= Z.max (Z.of_nat (length (combo_history (self o))))
        (max_history (self o)))%Z.
Proof.
  destruct (accepted_dec o n now) as [[combo Hacc]|Hno].
  - assert (Z.of_nat (length (combo_history (self (spec.started o n now))))
            <= Z.max (Z.of_nat (length (combo_history (self o))))
                 (max_history (self o)))%Z as Hstarted.
    { cbn. case_match eqn:Hlt.
      - rewrite length_tl, last_length. lia.
      - apply Z.ltb_ge in Hlt. lia. }
    by destruct (execute_combo_self_accepted o n combo now done world Hacc)
      as [-> | ->].
  - rewrite execute_combo_refused by done. cbn. lia.
Qed.

Lemma execute_combo_counters o n now done world :
  (successful_skills (self (fst (execute_combo o n now done world)))
   - total_skills (self (fst (execute_combo o n now done world)))
   = successful_skills (self o) - total_skills (self o))%Z
  ∧ total_skills (self (fst (execute_combo o n now done world)))
    = (total_skills (self o)
       + if snd (execute_combo o n now done world) then 1 else 0)%Z.
Proof.
  destruct (accepted_dec o n now) as [[combo Hacc]|Hno].
  - rewrite (execute_combo_accepted o n combo now done world) by done.
    pose proof (run_actions_self world (actions combo) 0
                  (spec.started o n now)) as Hself.
    destruct (run_actions _ _ _ _) as [o' [|]]; cbn in *; rewrite Hself;
      cbn; lia.
  - rewrite execute_combo_refused by done. cbn. lia.
Qed.

Lemma run_snoc o calls c : run o (calls ++ [c]) = apply_call (run o calls) c.
Proof. unfold run. by rewrite foldl_app. Qed.

(** X9.  The history of the manager never holds more than [max_history]
    entries once it holds no more than that: an accepted call appends one
    entry and drops the oldest one when the bound is passed.  Whatever the
    history was, no sequence of calls makes it longer than the larger of
    its length and the bound; the bound itself, the loaded combos and the
    Lua state are never changed by a call, and no combo is current between
    two calls. *)
Theorem X_history_bounded (o : Objects) (calls : list call) :
  (Z.of_nat (length (combo_history (self (run o calls))))
   <= Z.max (Z.of_nat (length (combo_history (self o))))
        (max_history (self o)))%Z
  ∧ max_history (self (run o calls)) = max_history (self o)
  ∧ combos (self (run o calls)) = combos (self o)
  ∧ lua_eval (self (run o calls)) = lua_eval (self o)
  ∧ (calls ≠ [] → current_combo (self (run o calls)) = None).
Proof.
  induction calls as [|c calls IH] using rev_ind; [cbn; split_and!; by try lia|].
  rewrite run_snoc. destruct IH as (Hlen & Hmax & Hcombos & Hlua & _).
  unfold apply_call.
  set (o1 := with_game_state (call_before c) (run o calls)).
  pose proof (execute_combo_frame o1 (call_name c) (call_now c) (call_done c)
                (call_world c)) as (Hmax' & Hcombos' & Hlua' & Hcur).
  pose proof (execute_combo_history_length o1 (call_name c) (call_now c)
                (call_done c) (call_world c)) as Hlen'.
  subst o1. cbn [with_game_state self] in *.
  split_and!; [lia|congruence|congruence|congruence|done].
Qed.

(** X10.  The two counters of the manager move together: a call adds one to
    both when it returns true and leaves both alone otherwise, so their
    difference never changes and the total grows by at most one per call.
    For a manager whose counters are equal and not negative (a fresh one),
    the accuracy that [get_combo_stats] reports is therefore 0 as long as
    no combo has completed and 1 from then on, however many calls were
    refused or cancelled. *)
Theorem X_counters_move_together (o : Objects) (calls : list call) :
  (successful_skills (self (run o calls)) - total_skills (self (run o calls))
   = successful_skills (self o) - total_skills (self o))%Z
  ∧ (total_skills (self o) <= total_skills (self (run o calls))
     <= total_skills (self o) + Z.of_nat (length calls))%Z
  ∧ (∀ n now done world,
       total_skills (self (fst (execute_combo o n now done world)))
       = (total_skills (self o)
          + if snd (execute_combo o n now done world) then 1 else 0)%Z)
  ∧ (successful_skills (self o) = total_skills (self o) →
     (0 <= total_skills (self o))%Z →
     stats_accuracy (get_combo_stats (self (run o calls)))
     == if (total_skills (self (run o calls)) =? 0)%Z then 0 else 1).
Proof.
  assert ((successful_skills (self (run o calls))
           - total_skills (self (run o calls))
           = successful_skills (self o) - total_skills (self o))%Z
          ∧ (total_skills (self o) <= total_skills (self (run o calls))
             <= total_skills (self o) + Z.of_nat (length calls))%Z)
    as [Hdiff Htotal].
  { induction calls as [|c calls IH] using rev_ind; [cbn; lia|].
    rewrite run_snoc, last_length. unfold apply_call.
    set (o1 := with_game_state (call_before c) (run o calls)).
    pose proof (execute_combo_counters o1 (call_name c) (call_now c)
                  (call_done c) (call_world c)) as [Hd Ht].
    destruct (snd (execute_combo o1 _ _ _ _));
      subst o1; cbn [with_game_state self] in *; lia. }
  refine (conj Hdiff (conj Htotal (conj _ _)));
    [intros; apply execute_combo_counters|].
  intros Heq Hpos. cbn [get_combo_stats stats_accuracy].
  assert (successful_skills (self (run o calls))
          = total_skills (self (run o calls))) as -> by lia.
  destruct (Z.eqb_spec (total_skills (self (run o calls))) 0) as [->|Hne].
  - reflexivity.
  - rewrite Z.max_r by lia.
    apply Qmult_inv_r. unfold inject_Z, Qeq. cbn. lia.
Qed.

Lemma X_history_bounded_witness :
  (Z.of_nat (length (combo_history
                       (self (run samples_rest.two_combos
                                [mkCall id "slash" 100 102 samples.quiet;
                                 mkCall id "leap" 101 103 samples.quiet]))))
   <= 50)%Z
  ∧ current_combo (self (run samples_rest.two_combos
                           [mkCall id "slash" 100 102 samples.quiet;
                            mkCall id "leap" 101 103 samples.quiet]))
    = None.
Proof.
  destruct (X_history_bounded samples_rest.two_combos
              [mkCall id "slash" 100 102 samples.quiet;
               mkCall id "leap" 101 103 samples.quiet])
    as (Hlen & _ & _ & _ & Hcur).
  split; [exact Hlen|]. apply Hcur. discriminate.
Defined.

Lemma X_counters_move_together_witness :
  stats_accuracy
    (get_combo_stats
       (self (run samples_rest.two_combos
                [mkCall id "slash" 100 102 samples.quiet;
                 mkCall id "slash" 101 103 samples.quiet;
                 mkCall id "leap" 102 104 samples.quiet])))
  == 1.
Proof.
  refine (proj2 (proj2 (proj2
            (X_counters_move_together samples_rest.two_combos
               [mkCall id "slash" 100 102 samples.quiet;
                mkCall id "slash" 101 103 samples.quiet;
                mkCall id "leap" 102 104 samples.quiet]))) _ _).
  - reflexivity.
  - discriminate.
Defined.

(** X11.  A call that is not accepted does nothing: when no combo of that name
    is loaded, or the loaded one is still cooling down, costs more mp than
    the character has, or has a Lua condition that does not evaluate to
    true, the call returns false, no key event is emitted, the world state,
    the history, the counters and the time of the last combo stay as they
    are, and the only write is that no combo is current. *)
Theorem X_refused_call (o : Objects) (n : string) (now done : Q)
  (world : nat → GameState → GameState) :
  (∀ combo,
     combos_get (combos (self o)) n = Some combo →
     now - last_use (combo_history (self o)) (name combo) < cooldown combo
     ∨ mp (stats (game_state o)) < mp_cost combo
     ∨ lua_eval (self o) (default "return true" (conditions combo !! "check"))
       ≠ Some true) →
  execute_combo o n now done world
  = (with_self (set_current_combo None) o, false).
Proof.
  intros Hrefuse. apply execute_combo_refused. intros combo [Hget Hcheck].
  unfold _check_combo_conditions, _check_cooldown in Hcheck.
  destruct (Hrefuse combo Hget) as [Hcd | [Hmp | Hlua]].
  - apply py_leb_gt in Hcd. unfold geb in Hcheck. by rewrite Hcd in Hcheck.
  - apply py_ltb_lt in Hmp. rewrite Hmp in Hcheck. by case_match.
  - repeat case_match; congruence.
Qed.

Lemma X_refused_call_witness :
  execute_combo
    (samples.objects [("slash", samples.slash)]
       (update_stats (game_state.init 0) {["mp" := 10]}))
    "slash" 100 102 samples.quiet
  = (with_self (set_current_combo None)
       (samples.objects [("slash", samples.slash)]
          (update_stats (game_state.init 0) {["mp" := 10]})),
     false).
Proof.
  apply (X_refused_call
           (samples.objects [("slash", samples.slash)]
              (update_stats (game_state.init 0) {["mp" := 10]}))
           "slash" 100 102 samples.quiet).
  intros combo Hget. right. left.
  injection Hget as <-. reflexivity.
Defined.

(** The keys that are down after a run of key events, for the three
    loops of [apply_action]. *)
Lemma held_presses (h : gset string) ks :
  foldl (λ h e, held_after e h) h (ks ≫= λ k, [KeyDown k; KeyUp k])
  = h ∖ list_to_set ks.
Proof.
  revert h. induction ks as [|k ks IH]; intros h; cbn.
  - set_solver.
  - rewrite IH. set_solver.
Qed.

Lemma held_holds (h : gset string) ks :
  foldl (λ h e, held_after e h) h (ks ≫= λ k, [KeyDown k])
  = list_to_set ks ∪ h.
Proof.
  revert h. induction ks as [|k ks IH]; intros h; cbn.
  - set_solver.
  - rewrite IH. set_solver.
Qed.

Lemma list_to_set_rev (ks : list string) :
  list_to_set (C := gset string) (rev ks) = list_to_set ks.
Proof.
  apply set_eq. intros x.
  by rewrite !elem_of_list_to_set, !list_elem_of_In, <- in_rev.
Qed.

Lemma apply_action_held a ih :
  held (events (apply_action a ih))
  = held (events ih)
    ∖ (if String.eqb (action_type a) "press"
          || String.eqb (action_type a) "hold"
          || String.eqb (action_type a) "release"
       then list_to_set (keys a) else ∅).
Proof.
  unfold apply_action.
  destruct (String.eqb (action_type a) "press"); cbn [orb].
  { rewrite (foldl_emit press_key (λ k, [KeyDown k; KeyUp k])) by done.
    cbn [emit events]. by rewrite held_app, held_presses. }
  destruct (String.eqb (action_type a) "hold"); cbn [orb].
  { rewrite release_keys_emit,
      (foldl_emit hold_key (λ k, [KeyDown k])) by done.
    cbn [emit events].
    rewrite held_released, held_app, held_holds, list_to_set_rev.
    set_solver. }
  destruct (String.eqb (action_type a) "release"); cbn [orb].
  { rewrite release_keys_emit. cbn [emit events]. by rewrite held_released. }
  set_solver.
Qed.

Lemma run_actions_held world acts i o :
  held (events (input_handler (fst (run_actions world acts i o))))
  ⊆ held (events (input_handler o)).
Proof.
  revert i o. induction acts as [|a acts IH]; intros i o; cbn [run_actions].
  - done.
  - case_match.
    + cbn [fst]. rewrite release_all_keys_events. cbn [emit events].
      rewrite held_released. set_solver.
    + etrans; [apply IH|]. cbn [with_game_state with_input_handler
                                  input_handler].
      rewrite apply_action_held. set_solver.
Qed.

Lemma execute_combo_held o n now done world :
  held (events (input_handler (fst (execute_combo o n now done world))))
  ⊆ held (events (input_handler o)).
Proof.
  destruct (accepted_dec o n now) as [[combo Hacc]|Hno].
  - rewrite (execute_combo_accepted o n combo now done world) by done.
    pose proof (run_actions_held world (actions combo) 0
                  (spec.started o n now)) as Hheld.
    by destruct (run_actions _ _ _ _) as [o' [|]].
  - by rewrite execute_combo_refused.
Qed.

(** X12.  The combo manager never leaves a key down that was not down before.
    Each action of a combo, once it has run, leaves its own keys up and
    every other key as it was: a press is a key down followed by a key up,
    a hold releases its keys before the next action, a release only
    releases, and an action of any other type touches no key.  So after a
    call of [execute_combo], and after any sequence of calls, whether they
    are refused, cancelled or complete, the keys that are down are among
    those that were down before. *)
Theorem X_keys_never_left_down (o : Objects) (calls : list call) :
  (∀ a ih,
     held (events (apply_action a ih))
     = held (events ih)
       ∖ (if String.eqb (action_type a) "press"
             || String.eqb (action_type a) "hold"
             || String.eqb (action_type a) "release"
          then list_to_set (keys a) else ∅))
  ∧ (∀ n now done world,
       held (events (input_handler (fst (execute_combo o n now done world))))
       ⊆ held (events (input_handler o)))
  ∧ held (events (input_handler (run o calls)))
    ⊆ held (events (input_handler o)).
Proof.
  split_and!; [apply apply_action_held|intros; apply execute_combo_held|].
  induction calls as [|c calls IH] using rev_ind; [done|].
  rewrite run_snoc. unfold apply_call.
  etrans; [apply execute_combo_held|]. exact IH.
Qed.

Lemma X_keys_never_left_down_witness :
  held (events (input_handler
                  (run (with_input_handler (λ ih, hold_key ih "shift")
                          samples_rest.two_combos)
                     [mkCall id "slash" 100 102 samples.stun_during_first])))
  ⊆ {["shift"]}.
Proof.
  exact (proj2 (proj2
           (X_keys_never_left_down
              (with_input_handler (λ ih, hold_key ih "shift")
                 samples_rest.two_combos)
              [mkCall id "slash" 100 102 samples.stun_during_first]))).
Defined.

(** X13.  After [cleanup] the manager has no combo: every call of
    [execute_combo] is refused without a key event or a change of the
    world state, [get_combo] finds nothing, and the statistics report no
    combo and an empty history while the two counters are kept. *)
Theorem X_cleanup_forgets_combos (o : Objects) (n : string) (now done : Q)
  (world : nat → GameState → GameState) (criteria : Criteria) :
  execute_combo (with_self cleanup o) n now done world
  = (with_self cleanup o, false)
  ∧ get_combo (with_self cleanup o) criteria now = None
  ∧ stats_total_combos (get_combo_stats (cleanup (self o))) = 0%nat
  ∧ stats_combo_history_length (get_combo_stats (cleanup (self o))) = 0%nat
  ∧ stats_last_combo (get_combo_stats (cleanup (self o))) = None
  ∧ stats_successful_skills (get_combo_stats (cleanup (self o)))
    = successful_skills (self o)
  ∧ stats_total_skills (get_combo_stats (cleanup (self o)))
    = total_skills (self o).
Proof. by destruct o as [c g ih]. Qed.

End combo_calls.

(** ** Mobs: matching, ids and groups *)

Section mob_matching.
Import py game_state mob_controller mob_controller_rest spec_tracking.
Local Open Scope Q_scope.

Lemma find_matching_mob_fold self pos d :
  _find_matching_mob self pos d
  = fst (foldl (matching_step pos) (None, None)
           (dict_values (tracked_mobs self))).
Proof. reflexivity. Qed.

(** The state of the loop of [_find_matching_mob] after the mobs [pre]:
    none of them is nearer than 5, or the best match is the nearest. *)
Lemma matching_step_state pos pre acc mob :
  (acc = (None, None)
   ∧ ∀ m, m ∈ pre → spec.dist_ge (distance_to (position m) pos) 5)
  ∨ (∃ m, acc = (Some m, Some (distance_to (position m) pos))
          ∧ nearest_within 5 pos pre m) →
  (matching_step pos acc mob = (None, None)
   ∧ ∀ m, m ∈ pre ++ [mob] → spec.dist_ge (distance_to (position m) pos) 5)
  ∨ (∃ m, matching_step pos acc mob
          = (Some m, Some (distance_to (position m) pos))
          ∧ nearest_within 5 pos (pre ++ [mob]) m).
Proof.
  unfold matching_step.
  intros [[-> Hfar] | (m & -> & l1 & l2 & -> & Hnear & Hl1 & Hl2)];
    cbn [snd].
  - destruct (dist_ltb (distance_to (position mob) pos) 5) eqn:Hlt; cbn [andb].
    + right. exists mob. split; [done|]. exists pre, [].
      apply dist_ltb_lt in Hlt. split_and!; [done|done| |].
      * intros x Hx. apply Hfar in Hx. unfold sq_dist.
        destruct Hlt as [_ Hlt], Hx as [Hx | Hx]; lra.
      * intros x Hx. by apply elem_of_nil in Hx.
    + left. split; [done|]. intros x [Hx | Hx]%elem_of_app; [by apply Hfar|].
      apply list_elem_of_singleton in Hx as ->. by apply dist_ltb_ge.
  - right.
    destruct (dist_lt_dist _ _ && dist_ltb _ 5) eqn:Hboth.
    + apply andb_true_iff in Hboth as [Hmin Hlt].
      apply py_ltb_lt in Hmin. apply dist_ltb_lt in Hlt.
      exists mob. split; [done|]. exists (l1 ++ m :: l2), [].
      split_and!; [done|done| |].
      * intros x Hx. unfold sq_dist.
        apply elem_of_app in Hx as [Hx | Hx]; [apply Hl1 in Hx|
          apply elem_of_cons in Hx as [-> | Hx]; [|apply Hl2 in Hx]];
          unfold sq_dist in *; lra.
      * intros x Hx. by apply elem_of_nil in Hx.
    + exists m. split; [done|]. exists l1, (l2 ++ [mob]).
      split_and!; [by rewrite <- app_assoc|done|done|].
      intros x [Hx | Hx]%elem_of_app; [by apply Hl2|].
      apply list_elem_of_singleton in Hx as ->. unfold sq_dist.
      apply andb_false_iff in Hboth as [Hmin | Hge].
      * by apply py_ltb_ge in Hmin.
      * apply dist_ltb_ge in Hge. destruct Hnear as [_ Hnear], Hge; lra.
Qed.

Lemma matching_fold_state pos mobs pre acc :
  (acc = (None, None)
   ∧ ∀ m, m ∈ pre → spec.dist_ge (distance_to (position m) pos) 5)
  ∨ (∃ m, acc = (Some m, Some (distance_to (position m) pos))
          ∧ nearest_within 5 pos pre m) →
  (foldl (matching_step pos) acc mobs = (None, None)
   ∧ ∀ m, m ∈ pre ++ mobs →
          spec.dist_ge (distance_to (position m) pos) 5)
  ∨ (∃ m, foldl (matching_step pos) acc mobs
          = (Some m, Some (distance_to (position m) pos))
          ∧ nearest_within 5 pos (pre ++ mobs) m).
Proof.
  revert pre acc. induction mobs as [|mob mobs IH]; intros pre acc Hacc.
  - by rewrite app_nil_r.
  - cbn [foldl]. rewrite (assoc_L (++) pre [mob] mobs : pre ++ mob :: mobs = _).
    apply IH. by apply matching_step_state.
Qed.

Lemma find_matching_mob_state self pos d :
  (_find_matching_mob self pos d = None
   ∧ ∀ m, m ∈ dict_values (tracked_mobs self) →
          spec.dist_ge (distance_to (position m) pos) 5)
  ∨ (∃ m, _find_matching_mob self pos d = Some m
          ∧ nearest_within 5 pos (dict_values (tracked_mobs self)) m).
Proof.
  rewrite find_matching_mob_fold.
  destruct (matching_fold_state pos (dict_values (tracked_mobs self)) []
              (None, None)) as [[-> Hfar] | (m & -> & Hnear)].
  - left. split; [done|]. intros m Hm. by apply elem_of_nil in Hm.
  - by left.
  - right. by exists m.
Qed.


(** X14.  [_find_matching_mob] returns the tracked mob nearest to the position,
    the first of the nearest when several are equally near, provided it is
    nearer than 5; it returns nothing exactly when no tracked mob is nearer
    than 5.  Its second argument, the distance of the detection from the
    player, is not used. *)
Theorem X_find_matching_mob (self : MobController) (pos : Position)
  (d : Dist) :
  (_find_matching_mob self pos d = None
   ↔ ∀ m, m ∈ dict_values (tracked_mobs self) →
          spec.dist_ge (distance_to (position m) pos) 5)
  ∧ (∀ m, _find_matching_mob self pos d = Some m →
          nearest_within 5 pos (dict_values (tracked_mobs self)) m)
  ∧ (∀ d', _find_matching_mob self pos d' = _find_matching_mob self pos d).
Proof.
  split_and!; [|intros m Hm|done].
  - split.
    + intros Hnone.
      destruct (find_matching_mob_state self pos d)
        as [[_ Hfar] | (m & Hsome & _)]; [done|congruence].
    + intros Hfar.
      destruct (find_matching_mob_state self pos d)
        as [[Hnone _] | (m & _ & l1 & l2 & Heq & [_ Hlt] & _)]; [done|].
      assert (m ∈ dict_values (tracked_mobs self)) as Hin
        by (rewrite Heq; set_solver).
      destruct (Hfar m Hin); lra.
  - destruct (find_matching_mob_state self pos d)
      as [[Hnone _] | (m' & Hsome & Hnear)]; congruence.
Qed.

Lemma X_find_matching_mob_witness :
  nearest_within 5 (mkPosition 1 0 2 0)
    (dict_values (tracked_mobs samples.tracking_wolf)) samples.wolf.
Proof.
  apply (proj1 (proj2 (X_find_matching_mob samples.tracking_wolf
                         (mkPosition 1 0 2 0) (Sqrt 0)))).
  reflexivity.
Defined.









(** X16.  The threat level of a detection is capped at 1.  For a bounding box
    of non-negative area it is not negative, and a detection that carries
    no distance counts as one at distance 0, so that its threat level is at
    least 0.3; from an area of 10000 on the threat level is 1. *)
Theorem X_threat_level (d : Detection) :
  _calculate_threat_level d <= 1
  ∧ ((0 <= snd (fst (det_bbox d)) * snd (det_bbox d))%Z →
     0 <= _calculate_threat_level d
     ∧ (det_distance d = None → 3 # 10 <= _calculate_threat_level d))
  ∧ ((10000 <= snd (fst (det_bbox d)) * snd (det_bbox d))%Z →
     _calculate_threat_level d == 1).
Proof.
  unfold _calculate_threat_level, Qmin.
  destruct (det_bbox d) as [[[bx by_] w] h]. cbn [fst snd].
  set (area := (w * h)%Z).
  assert (∀ a : Z, (0 <= a)%Z → 0 <= inject_Z a / 10000) as Hpos.
  { intros a Ha. apply Qle_shift_div_l; [reflexivity|].
    rewrite Qmult_0_l. change 0 with (inject_Z 0). by rewrite <- Zle_Qle. }
  assert (∀ a : Z, (10000 <= a)%Z → 1 <= inject_Z a / 10000) as Hbig.
  { intros a Ha. apply Qle_shift_div_l; [reflexivity|].
    change (1 * 10000) with (inject_Z 10000). by rewrite <- Zle_Qle. }
  split_and!.
  - case_match eqn:Hle; [by apply py_leb_le in Hle|lra].
  - intros Harea. specialize (Hpos area Harea). split.
    + repeat case_match; lra.
    + intros ->. cbn [default].
      change (ltb 0 10) with true. cbv iota.
      repeat case_match; lra.
  - intros Harea. specialize (Hbig area Harea).
    assert (0 <= inject_Z area / 10000) as Hpos' by lra.
    destruct (leb _ 1) eqn:Hle; [|reflexivity].
    apply py_leb_le in Hle. revert Hle. repeat case_match; intros; lra.
Qed.

Lemma X_threat_level_witness :
  3 # 10 <= _calculate_threat_level samples.boar_far.
Proof.
  refine (proj2 (proj1 (proj2 (X_threat_level samples.boar_far)) _) _).
  - discriminate.
  - reflexivity.
Defined.

Lemma size_list_to_set_le (l : list Z) :
  (base.size (list_to_set (C := gset Z) l) <= length l)%nat.
Proof.
  induction l as [|k l IH]; cbn; [by rewrite size_empty|].
  rewrite size_union_alt, size_singleton.
  assert (base.size (list_to_set (C := gset Z) l ∖ {[k]})
          ≤ base.size (list_to_set (C := gset Z) l))%nat as Hle
    by (apply subseteq_size; set_solver).
  lia.
Qed.

(** The inner loop of the grouping: every mob that joins the group is
    marked as processed, and was not marked before. *)
Lemma collect_state mob items processed group :
  processed ⊆ fst (foldl (collect mob) (processed, group) items)
  ∧ fst (foldl (collect mob) (processed, group) items)
    ⊆ processed ∪ list_to_set (dict_keys items)
  ∧ (base.size (fst (foldl (collect mob) (processed, group) items))
     + length group
     = base.size processed
       + length (snd (foldl (collect mob) (processed, group) items)))%nat.
Proof.
  revert processed group.
  induction items as [|[other_id other_mob] items IH];
    intros processed group; cbn [foldl].
  - cbn. split_and!; [done|set_solver|lia].
  - unfold collect at 2 4 6 8. cbn [dict_keys map fst list_to_set].
    case_bool_decide as Hnew;
      [destruct (dist_ltb _ 15)|];
      try (destruct (IH processed group) as (H1 & H2 & H3);
           split_and!; [done|set_solver|done]).
    destruct (IH (processed ∪ {[other_id]}) (group ++ [other_mob]))
      as (H1 & H2 & H3).
    split_and!; [set_solver|set_solver|].
    rewrite size_union, size_singleton in H3 by set_solver.
    rewrite last_length in H3. lia.
Qed.

(** The state of the outer loop: with [n] the larger of 1 and
    [min_group_size], the groups found so far account for [n] processed
    mobs each. *)
Lemma group_step_state self st item :
  item ∈ tracked_mobs self →
  fst st ⊆ list_to_set (dict_keys (tracked_mobs self))
  ∧ (Z.of_nat (length (snd st)) * Z.max 1 (min_group_size self)
     <= Z.of_nat (base.size (fst st)))%Z →
  fst (group_step self st item)
  ⊆ list_to_set (dict_keys (tracked_mobs self))
  ∧ (Z.of_nat (length (snd (group_step self st item)))
     * Z.max 1 (min_group_size self)
     <= Z.of_nat (base.size (fst (group_step self st item))))%Z.
Proof.
  destruct st as [processed groups], item as [mob_id mob].
  cbn [fst snd]. intros Hitem [Hsub Hcount]. unfold group_step.
  case_bool_decide as Hseen; [done|].
  pose proof (collect_state mob (tracked_mobs self)
                (processed ∪ {[mob_id]}) [mob]) as (H1 & H2 & H3).
  destruct (foldl (collect mob) _ _) as [processed' group].
  cbn [fst snd length] in *.
  rewrite size_union, size_singleton in H3 by set_solver.
  assert (mob_id ∈ dict_keys (tracked_mobs self)) as Hkey.
  { apply list_elem_of_fmap. by exists (mob_id, mob). }
  assert (processed' ⊆ list_to_set (dict_keys (tracked_mobs self))) as Hsub'
    by set_solver.
  assert (base.size processed ≤ base.size processed')%nat as Hgrow
    by (apply subseteq_size; set_solver).
  assert (base.size (processed ∪ {[mob_id]}) ≤ base.size processed')%nat
    as Hseed by (by apply subseteq_size).
  rewrite size_union, size_singleton in Hseed by set_solver.
  destruct (Z.leb_spec (min_group_size self) (Z.of_nat (length group)));
    cbn [fst snd]; (split; [done|]).
  - rewrite last_length.
    assert (Z.max 1 (min_group_size self) <= Z.of_nat (length group))%Z
      by lia.
    nia.
  - nia.
Qed.

Lemma group_fold_state self items st :
  (∀ item, item ∈ items → item ∈ tracked_mobs self) →
  fst st ⊆ list_to_set (dict_keys (tracked_mobs self))
  ∧ (Z.of_nat (length (snd st)) * Z.max 1 (min_group_size self)
     <= Z.of_nat (base.size (fst st)))%Z →
  fst (foldl (group_step self) st items)
  ⊆ list_to_set (dict_keys (tracked_mobs self))
  ∧ (Z.of_nat (length (snd (foldl (group_step self) st items)))
     * Z.max 1 (min_group_size self)
     <= Z.of_nat (base.size (fst (foldl (group_step self) st items))))%Z.
Proof.
  revert st. induction items as [|item items IH]; intros st Hitems Hst.
  - done.
  - cbn [foldl]. apply IH; [set_solver|].
    apply group_step_state; [set_solver|done].
Qed.

Lemma collect_grows mob items processed group :
  (length group
   <= length (snd (foldl (collect mob) (processed, group) items)))%nat.
Proof.
  revert processed group.
  induction items as [|[other_id other_mob] items IH];
    intros processed group; cbn [foldl]; [done|].
  unfold collect at 2. repeat case_match; try apply IH.
  etrans; [|apply IH]. rewrite last_length. lia.
Qed.

Lemma group_step_grows self st item :
  (length (snd st) <= length (snd (group_step self st item)))%nat.
Proof.
  destruct st as [processed groups], item as [mob_id mob].
  unfold group_step. repeat case_match; cbn [snd]; rewrite ?last_length; lia.
Qed.

Lemma group_fold_grows self items st :
  (length (snd st) <= length (snd (foldl (group_step self) st items)))%nat.
Proof.
  revert st. induction items as [|item items IH]; intros st; [done|].
  cbn [foldl]. etrans; [apply group_step_grows|apply IH].
Qed.

(** X17.  [get_mob_group_positions] counts no mob in two groups: with [n] the
    larger of 1 and [min_group_size], it reports at most as many groups as
    there are [n] tracked mobs each.  So it reports no group when fewer
    than [min_group_size] mobs are tracked, and never more groups than
    mobs.  With a [min_group_size] of at most 1 every tracked mob is a
    group, if need be on its own, so that some group is reported as soon as
    a mob is tracked. *)
Theorem X_mob_groups (self : MobController) :
  (Z.of_nat (length (get_mob_group_positions self))
   * Z.max 1 (min_group_size self)
   <= Z.of_nat (length (tracked_mobs self)))%Z
  ∧ (length (get_mob_group_positions self) <= length (tracked_mobs self))%nat
  ∧ ((Z.of_nat (length (tracked_mobs self)) < min_group_size self)%Z →
     get_mob_group_positions self = [])
  ∧ ((min_group_size self <= 1)%Z → tracked_mobs self ≠ [] →
     get_mob_group_positions self ≠ []).
Proof.
  assert ((min_group_size self <= 1)%Z → tracked_mobs self ≠ [] →
          get_mob_group_positions self ≠ []) as Hsome.
  { intros Hmin Htracked. unfold get_mob_group_positions.
    destruct (tracked_mobs self) as [|[mob_id mob] items]; [done|].
    cbn [foldl]. intros Hnil.
    pose proof (group_fold_grows self items
                  (group_step self (∅, []) (mob_id, mob))) as Hgrow.
    rewrite Hnil in Hgrow. revert Hgrow. unfold group_step.
    rewrite bool_decide_eq_false_2 by set_solver.
    pose proof (collect_grows mob (tracked_mobs self) (∅ ∪ {[mob_id]})
                  [mob]) as Hseed.
    destruct (foldl (collect mob) _ _) as [processed' group].
    cbn [snd length] in *.
    destruct (Z.leb_spec (min_group_size self) (Z.of_nat (length group)));
      [|lia].
    cbn [snd app length]. lia. }
  assert (Z.of_nat (length (get_mob_group_positions self))
          * Z.max 1 (min_group_size self)
          <= Z.of_nat (length (tracked_mobs self)))%Z as Hcount.
  { unfold get_mob_group_positions.
    destruct (tracked_mobs self) as [|item items] eqn:Htracked; [cbn; lia|].
    rewrite <- Htracked.
    destruct (group_fold_state self (tracked_mobs self) (∅, []))
      as [Hsub Hcount]; [done|cbn; split; [set_solver|lia]|].
    pose proof (subseteq_size _ _ Hsub) as Hsize.
    pose proof (size_list_to_set_le (dict_keys (tracked_mobs self))) as Hle.
    assert (length (dict_keys (tracked_mobs self))
            = length (tracked_mobs self)) as Hlen
      by apply length_map.
    lia. }
  split_and!; [done|nia| |done].
  intros Hfew. destruct (get_mob_group_positions self); [done|].
  cbn [length] in Hcount. nia.
Qed.

Lemma X_mob_groups_witness :
  get_mob_group_positions samples.tracking_wolf = []
  ∧ get_mob_group_positions (set_min_group_size 1 samples.tracking_wolf) ≠ [].
Proof.
  split.
  - apply (proj1 (proj2 (proj2 (X_mob_groups samples.tracking_wolf)))).
    reflexivity.
  - apply (proj2 (proj2 (proj2
             (X_mob_groups (set_min_group_size 1 samples.tracking_wolf)))));
      discriminate.
Defined.

End mob_matching.

(** ** The combat cycle *)

Section combat_cycle.
Import py game_state input_handler combat_system combat_system_rest.
Local Open Scope Q_scope.

Lemma update_metrics_combat_time o t :
  in_combat (self o) = false →
  combat_time (metrics (self (_update_metrics o t)))
  = combat_time (metrics (self o)).
Proof. intros Hout. unfold _update_metrics. rewrite Hout. by case_match. Qed.

Lemma exit_combat_combat_time o t :
  combat_time (metrics (self (_exit_combat o t)))
  = combat_time (metrics (self o)).
Proof.
  unfold _exit_combat. by rewrite update_metrics_combat_time.
Qed.

Lemma emergency_exit_combat_time o t now done world :
  combat_time (metrics (self (_emergency_exit o t now done world)))
  = combat_time (metrics (self o)).
Proof.
  unfold _emergency_exit.
  repeat case_match; cbn [with_combo_objects self];
    apply exit_combat_combat_time.
Qed.

Lemma check_pvp_threat_frame o t :
  in_combat (self (fst (_check_pvp_threat o t))) = in_combat (self o)
  ∧ metrics (self (fst (_check_pvp_threat o t))) = metrics (self o)
  ∧ current_target (self (fst (_check_pvp_threat o t)))
    = current_target (self o)
  ∧ max_chase_distance (self (fst (_check_pvp_threat o t)))
    = max_chase_distance (self o)
  ∧ game_state (fst (_check_pvp_threat o t)) = game_state o
  ∧ mob_controller (fst (_check_pvp_threat o t)) = mob_controller o
  ∧ combo_manager (fst (_check_pvp_threat o t)) = combo_manager o
  ∧ input_handler (fst (_check_pvp_threat o t)) = input_handler o.
Proof. unfold _check_pvp_threat. by case_match. Qed.

Lemma is_target_valid_frame o :
  in_combat (self (fst (_is_target_valid o))) = in_combat (self o)
  ∧ combat_time (metrics (self (fst (_is_target_valid o))))
    = combat_time (metrics (self o))
  ∧ game_state (fst (_is_target_valid o)) = game_state o
  ∧ mob_controller (fst (_is_target_valid o)) = mob_controller o
  ∧ combo_manager (fst (_is_target_valid o)) = combo_manager o
  ∧ input_handler (fst (_is_target_valid o)) = input_handler o.
Proof. unfold _is_target_valid. by repeat case_match. Qed.

Lemma execute_combat_actions_self o now done world o' :
  _execute_combat_actions o now done world = inr o' → self o' = self o.
Proof.
  unfold _execute_combat_actions. repeat case_match; by intros [= <-].
Qed.

Lemma act_out_of_combat c o :
  in_combat (self o) = false →
  in_combat (self (objects (act c o))) = false
  ∧ combat_time (metrics (self (objects (act c o))))
    = combat_time (metrics (self o)).
Proof.
  intros Hout. unfold act, except.
  destruct (_execute_combat_actions o _ _ _) as [e|o'] eqn:Hact;
    cbn [objects].
  - split; [|apply emergency_exit_combat_time].
    by destruct (emergency_exit_effects o (exit_time c) (now c) (done c)
                   (world c)) as [-> _].
  - apply execute_combat_actions_self in Hact.
    destruct (update_metrics_frame o' (current_time c)) as [-> _].
    rewrite update_metrics_combat_time; by rewrite Hact.
Qed.

(** X18.  The combat system never enters combat.  Nothing in a cycle sets
    [in_combat]: when it is false before [update], as it is from the
    construction on, it is false after it, whichever way the cycle goes and
    whatever [select_target] answers.  The combat time of the metrics,
    which is only written while [in_combat] holds, therefore keeps its
    value. *)
Theorem X_cycle_never_enters_combat (o : Objects) (c : Cycle) :
  in_combat (self o) = false →
  (in_combat (self (objects (update o c))) = false
   ∧ combat_time (metrics (self (objects (update o c))))
     = combat_time (metrics (self o)))
  ∧ (∀ selected,
       in_combat (self (objects (resume o c selected))) = false
       ∧ combat_time (metrics (self (objects (resume o c selected))))
         = combat_time (metrics (self o))).
Proof.
  intros Hout.
  assert (∀ o1 t,
            in_combat (self (objects (except c t o1))) = false
            ∧ combat_time (metrics (self (objects (except c t o1))))
              = combat_time (metrics (self o1))) as Hexcept.
  { intros o1 t. unfold except. cbn [objects].
    split; [|apply emergency_exit_combat_time].
    by destruct (emergency_exit_effects o1 t (now c) (done c) (world c))
      as [-> _]. }
  split.
  - unfold update. rewrite Hout. cbn [negb andb].
    destruct (_should_enter_combat o); cbn [negb]; [|done].
    destruct (_check_resources o) as [e|[|]]; [apply Hexcept| |].
    + destruct (check_pvp_threat_frame o (pvp_time c))
        as (Hin & Hmetrics & _).
      destruct (_check_pvp_threat o (pvp_time c)) as [o1 threat].
      cbn [fst] in *. destruct threat.
      { cbn [objects]. unfold _handle_pvp_threat.
        rewrite emergency_exit_combat_time, Hmetrics.
        by destruct (emergency_exit_effects o1 (exit_time c) (now c)
                       (done c) (world c)) as [-> _]. }
      assert (in_combat (self o1) = false) as Hout1 by congruence.
      destruct (is_target_valid_frame o1) as (Hin2 & Htime2 & _).
      destruct (current_target (self o1)) as [target|].
      * destruct (_is_target_valid o1) as [o2 valid]. cbn [fst] in *.
        assert (in_combat (self o2) = false) as Hout2 by congruence.
        destruct valid; cbn [negb].
        -- destruct (act_out_of_combat c o2 Hout2) as [-> ->].
           by rewrite Htime2, Hmetrics.
        -- destruct (_select_new_target o2).
           ++ destruct (Hexcept o2 (exit_time c)) as [-> ->].
              by rewrite Htime2, Hmetrics.
           ++ cbn [objects]. by rewrite Htime2, Hmetrics.
      * destruct (_select_new_target o1).
        -- destruct (Hexcept o1 (exit_time c)) as [-> ->].
           by rewrite Hmetrics.
        -- cbn [objects]. by rewrite Hmetrics.
    + unfold _handle_low_resources.
      destruct (Hexcept (_exit_combat o (exit_time c)) (exit_time' c))
        as [-> ->].
      by rewrite exit_combat_combat_time.
  - intros [e|[best_mob|]]; unfold resume.
    + apply Hexcept.
    + match goal with
      | |- context [act c ?o1] =>
          destruct (act_out_of_combat c o1 Hout) as [-> ->]
      end.
      done.
    + cbn [objects]. rewrite exit_combat_combat_time.
      by destruct (exit_combat_effects
                     (with_self (set_current_target None) o) (exit_time c))
        as [-> _].
Qed.

Lemma X_cycle_never_enters_combat_witness :
  in_combat
    (self (objects (update
                      (samples_rest.hunting (Some (samples_rest.wolf_at 1 1))
                         (game_state.init 0))
                      samples_rest.calm)))
  = false.
Proof.
  apply (X_cycle_never_enters_combat
           (samples_rest.hunting (Some (samples_rest.wolf_at 1 1))
              (game_state.init 0))
           samples_rest.calm).
  reflexivity.
Defined.

Lemma check_resources_ok o :
  _check_resources o = inr true
  ↔ ¬ hp_max (stats (game_state o)) == 0
    ∧ ¬ mp_max (stats (game_state o)) == 0
    ∧ min_hp_percent (self o)
      < hp (stats (game_state o)) / hp_max (stats (game_state o))
    ∧ min_mp_percent (self o)
      < mp (stats (game_state o)) / mp_max (stats (game_state o)).
Proof.
  unfold _check_resources.
  destruct (Qeq_bool (hp_max _) 0) eqn:Hhp.
  { apply Qeq_bool_iff in Hhp. split; [done|]. by intros [? _]. }
  destruct (Qeq_bool (mp_max _) 0) eqn:Hmp.
  { apply Qeq_bool_iff in Hmp. split; [done|]. by intros (_ & ? & _). }
  apply Qeq_bool_neq in Hhp, Hmp.
  split.
  - intros [= Hboth]. apply andb_true_iff in Hboth as [H1 H2].
    apply py_gtb_gt in H1, H2. by split_and!.
  - intros (_ & _ & H1 & H2). apply py_gtb_gt in H1, H2.
    by rewrite H1, H2.
Qed.

(** X19.  Low vitals end the cycle in the emergency exit.  The resources are
    in order exactly when both maxima are not 0 and hp and mp are above
    their minimum share.  When the cycle is entered and they are not, the
    cycle ends with no target, out of combat, and with the modifier keys
    released, having looked for an escape combo: a maximum of 0 makes the
    check itself fail, and low vitals make [_handle_low_resources] leave
    combat and then fail on a method that the controller does not have, so
    that combat is left a second time by the emergency exit. *)
Theorem X_cycle_low_resources (o : Objects) (c : Cycle) :
  (_check_resources o = inr true
   ↔ ¬ hp_max (stats (game_state o)) == 0
     ∧ ¬ mp_max (stats (game_state o)) == 0
     ∧ min_hp_percent (self o)
       < hp (stats (game_state o)) / hp_max (stats (game_state o))
     ∧ min_mp_percent (self o)
       < mp (stats (game_state o)) / mp_max (stats (game_state o)))
  ∧ (in_combat (self o) = true ∨ _should_enter_combat o = true →
     _check_resources o ≠ inr true →
     ∃ o',
       update o c = Ended o'
       ∧ in_combat (self o') = false
       ∧ current_target (self o') = None
       ∧ (∃ rest,
            events (input_handler o')
            = events (input_handler o)
              ++ (KeyUp <$> combo_manager.mod_keys) ++ rest)
       ∧ (_check_resources o = inr false →
          o' = _emergency_exit (_exit_combat o (exit_time c)) (exit_time' c)
                 (now c) (done c) (world c))).
Proof.
  split; [apply check_resources_ok|].
  intros Hentered Hlow. unfold update.
  assert (negb (in_combat (self o)) && negb (_should_enter_combat o) = false)
    as -> by (destruct Hentered as [-> | ->]; by rewrite ?andb_false_r).
  destruct (_check_resources o) as [e|[|]]; [|done|].
  - eexists. split; [reflexivity|].
    destruct (emergency_exit_effects o (exit_time c) (now c) (done c)
                (world c)) as (H1 & H2 & H3).
    by split_and!.
  - unfold _handle_low_resources, except. eexists. split; [reflexivity|].
    destruct (emergency_exit_effects (_exit_combat o (exit_time c))
                (exit_time' c) (now c) (done c) (world c))
      as (H1 & H2 & rest' & H3).
    destruct (exit_combat_effects o (exit_time c))
      as (_ & _ & _ & _ & rest & H4).
    split_and!; [done|done| |done].
    rewrite H3, H4. eexists. by rewrite <- !app_assoc.
Qed.

Lemma X_cycle_low_resources_witness :
  ∃ o',
    update
      (samples_rest.hunting None
         (update_stats (game_state.init 0) {["hp" := 10]}))
      samples_rest.calm
    = Ended o'
    ∧ current_target (self o') = None.
Proof.
  destruct (proj2 (X_cycle_low_resources
                     (samples_rest.hunting None
                        (update_stats (game_state.init 0) {["hp" := 10]}))
                     samples_rest.calm))
    as (o' & Hended & _ & Htarget & _).
  - right. reflexivity.
  - discriminate.
  - by exists o'.
Defined.

Lemma is_target_valid_after_check o t :
  snd (_is_target_valid (fst (_check_pvp_threat o t)))
  = snd (_is_target_valid o).
Proof.
  unfold _check_pvp_threat. destruct (ltb _ 1); [done|].
  unfold _is_target_valid. cbn. by repeat case_match.
Qed.

(** X20.  A group of mobs keeps the cycle from choosing a target.  [update]
    reaches [select_target] only when [get_mob_group_positions] reports no
    group, and then with the world state, the controller, the combo manager
    and the keys as they were.  When the cycle is entered with the
    resources in order and no PvP threat, has no valid target and a group
    is reported, [_select_new_target] fails on a method that the controller
    does not have, and the cycle ends in the emergency exit: no target, out
    of combat, the modifier keys released. *)
Theorem X_cycle_groups_block_selection (o : Objects) (c : Cycle) :
  (∀ o',
     update o c = Selecting o' →
     mob_controller_rest.get_mob_group_positions (mob_controller o) = []
     ∧ _check_resources o = inr true
     ∧ snd (_is_target_valid o) = false
     ∧ game_state o' = game_state o
     ∧ mob_controller o' = mob_controller o
     ∧ combo_manager o' = combo_manager o
     ∧ input_handler o' = input_handler o)
  ∧ (in_combat (self o) = true ∨ _should_enter_combat o = true →
     _check_resources o = inr true →
     snd (_check_pvp_threat o (pvp_time c)) = false →
     snd (_is_target_valid o) = false →
     mob_controller_rest.get_mob_group_positions (mob_controller o) ≠ [] →
     ∃ o',
       update o c = Ended o'
       ∧ in_combat (self o') = false
       ∧ current_target (self o') = None
       ∧ ∃ rest,
           events (input_handler o')
           = events (input_handler o)
             ++ (KeyUp <$> combo_manager.mod_keys) ++ rest).
Proof.
  pose proof (check_pvp_threat_frame o (pvp_time c))
    as (_ & _ & Htarget & _ & Hg & Hm & Hc & Hi).
  pose proof (is_target_valid_after_check o (pvp_time c)) as Hvalid.
  pose proof (is_target_valid_frame (fst (_check_pvp_threat o (pvp_time c))))
    as (_ & _ & Hg' & Hm' & Hc' & Hi').
  assert (current_target (self o) = None → snd (_is_target_valid o) = false)
    as Hnone by (unfold _is_target_valid; by intros ->).
  split.
  - intros o'. unfold update.
    destruct (negb _ && negb _); [done|].
    destruct (_check_resources o) as [e|[|]]; [done| |done].
    destruct (_check_pvp_threat o (pvp_time c)) as [o1 threat].
    cbn [fst] in *. destruct threat; [done|].
    destruct (current_target (self o1)) as [target|].
    + destruct (_is_target_valid o1) as [o2 valid]. cbn [fst snd] in *.
      destruct valid; cbn [negb].
      { unfold act, except. by case_match. }
      unfold _select_new_target. rewrite Hm', Hm.
      destruct (mob_controller_rest.get_mob_group_positions _); [|done].
      intros [= <-]. split_and!; congruence.
    + unfold _select_new_target. rewrite Hm.
      destruct (mob_controller_rest.get_mob_group_positions _); [|done].
      intros [= <-]. split_and!; try done. by apply Hnone.
  - intros Hentered Hok Hquiet Hinvalid Hgroups. unfold update.
    assert (negb (in_combat (self o)) && negb (_should_enter_combat o)
            = false)
      as -> by (destruct Hentered as [-> | ->]; by rewrite ?andb_false_r).
    rewrite Hok.
    destruct (_check_pvp_threat o (pvp_time c)) as [o1 threat].
    cbn [fst snd] in *. subst threat.
    assert (∃ o2,
              events (input_handler o2) = events (input_handler o)
              ∧ mob_controller o2 = mob_controller o
              ∧ (let '(o, invalid) :=
                   match current_target (self o1) with
                   | None => (o1, true)
                   | Some _ => let '(o, valid) := _is_target_valid o1 in
                               (o, negb valid)
                   end in
                 if invalid then
                   match _select_new_target o with
                   | Raises _ => except c (exit_time c) o
                   | Calls_select_target => Selecting o
                   end
                 else act c o)
                = except c (exit_time c) o2) as (o2 & Hevents & Hmobs & ->).
    { destruct (current_target (self o1)) as [target|].
      - destruct (_is_target_valid o1) as [o2 valid]. cbn [fst snd] in *.
        rewrite Hinvalid in Hvalid. subst valid. cbn [negb]. exists o2.
        split_and!; [congruence|congruence|].
        unfold _select_new_target. rewrite Hm', Hm.
        by destruct (mob_controller_rest.get_mob_group_positions _).
      - exists o1. split_and!; [congruence|done|].
        unfold _select_new_target. rewrite Hm.
        by destruct (mob_controller_rest.get_mob_group_positions _). }
    unfold except. eexists. split; [reflexivity|].
    destruct (emergency_exit_effects o2 (exit_time c) (now c) (done c)
                (world c)) as (H1 & H2 & rest & H3).
    split_and!; [done|done|]. exists rest. by rewrite H3, Hevents.
Qed.

Lemma X_cycle_groups_block_selection_witness :
  ∃ o',
    update (samples_rest.hunting None (game_state.init 0)) samples_rest.calm
    = Ended o'
    ∧ current_target (self o') = None.
Proof.
  destruct (proj2 (X_cycle_groups_block_selection
                     (samples_rest.hunting None (game_state.init 0))
                     samples_rest.calm))
    as (o' & Hended & _ & Htarget & _).
  - right. reflexivity.
  - reflexivity.
  - reflexivity.
  - reflexivity.
  - discriminate.
  - by exists o'.
Defined.

End combat_cycle.
